(** * hikari-flare: the converter registry and the custom-id codec

    A shallow embedding of [flare/converters.py] and
    [flare/internal/serde.py].

    - Python [str] values are lists of code points ([list N]); [bytes]
      values are lists of [Byte.byte]; Python [int] is [Z].
    - A 64-bit float is identified with its IEEE-754 binary64 bit pattern
      (a [Z] below [2^64]); [struct.pack("d", _)] is taken on a
      little-endian host.
    - Exceptions are values of [exc]; code that can raise returns
      [result].
    - The module-level registry [_converters], the [functools.lru_cache]
      around [get_converter] and the identity of converter instances live
      in an explicit [state] threaded through a small state-and-exception
      monad. *)

From Stdlib Require Import ZArith NArith List String Ascii Lia.
From Stdlib.Strings Require Import Byte.
From Stdlib Require Import DecimalString.
From Stdlib.Floats Require Import SpecFloat.
From stdpp Require Import gmap strings list.

Local Open Scope Z_scope.

(** ** The Python values the code works on *)

Module Py.

(** A Python [str]: a sequence of code points. *)
Definition pystr : Type := list N.

Definition chr (c : ascii) : N := N_of_ascii c.

(** A literal of the source text. *)
Definition lit (s : string) : pystr := map chr (list_ascii_of_string s).

(** Modelled from the spec: [flare.exceptions], which declares
    [ConverterError] and [SerializerError], is not among the sources; the
    spec has each of them carry a message (it calls the first one
    ConverterNotFound).  The other constructors are the built-in exceptions
    the code can end in, [StructError] is [struct.error], and [UserError]
    is whatever a converter written by a user raises. *)
Inductive exc : Type :=
| IndexError
| UnicodeEncodeError
| OverflowError
| ValueError
| StructError
| TypeError
| AttributeError
| AssertionError
| RecursionError
| UserError (msg : pystr)
| ConverterError (msg : pystr)
| SerializerError (msg : pystr).

Inductive result (A : Type) : Type :=
| Ok (a : A)
| Raise (e : exc).
Arguments Ok {A} a.
Arguments Raise {A} e.

Definition rbind {A B} (r : result A) (k : A -> result B) : result B :=
  match r with
  | Ok a => k a
  | Raise e => Raise e
  end.

(** [len(obj)] *)
Definition len {A} (obj : list A) : Z := Z.of_nat (length obj).

(** [obj[0]] on a string: [IndexError] on the empty string. *)
Definition index0 (obj : pystr) : result N :=
  match obj with
  | [] => Raise IndexError
  | c :: _ => Ok c
  end.

(** [obj[i:j]] and [obj[i:]] for non-negative bounds: slices clamp, they
    never raise. *)
Definition slice (i j : nat) (obj : pystr) : pystr := take (j - i) (drop i obj).
Definition slice_from (i : nat) (obj : pystr) : pystr := drop i obj.

(** [s.encode("latin1")]: every code point must be below 256. *)
Fixpoint encode_latin1 (s : pystr) : result (list byte) :=
  match s with
  | [] => Ok []
  | c :: s' =>
      match Byte.of_N c with
      | Some b => rbind (encode_latin1 s') (fun bs => Ok (b :: bs))
      | None => Raise UnicodeEncodeError
      end
  end.

(** [b.decode("latin1")]: byte [k] is code point [k]. *)
Definition decode_latin1 (b : list byte) : pystr := map Byte.to_N b.

Definition byte_of_Z (z : Z) : byte :=
  match Byte.of_N (Z.to_N z) with
  | Some b => b
  | None => x00
  end.

(** The [n] low bytes of [v], least significant first. *)
Fixpoint le_bytes (n : nat) (v : Z) : list byte :=
  match n with
  | O => []
  | S n' => byte_of_Z (v mod 256) :: le_bytes n' (v / 256)
  end.

(** [v.to_bytes(length, "little")] with the default [signed=False]. *)
Definition to_bytes (v : Z) (length : Z) : result (list byte) :=
  if length <? 0 then Raise ValueError
  else if v <? 0 then Raise OverflowError
  else if 256 ^ length <=? v then Raise OverflowError
  else Ok (le_bytes (Z.to_nat length) v).

(** [int.from_bytes(b, "little")] *)
Fixpoint from_bytes (b : list byte) : Z :=
  match b with
  | [] => 0
  | x :: b' => Z.of_N (Byte.to_N x) + 256 * from_bytes b'
  end.

(** [v.bit_length()]: the number of bits of [abs v]. *)
Definition bit_length (v : Z) : Z :=
  if v =? 0 then 0 else Z.log2 (Z.abs v) + 1.

(** [struct.pack("d", x)]: the eight bytes of the binary64 pattern. *)
Definition struct_pack_d (bits : Z) : list byte := le_bytes 8 bits.

(** [struct.unpack("d", b)[0]]: the buffer must hold exactly 8 bytes. *)
Definition struct_unpack_d (b : list byte) : result Z :=
  if Nat.eqb (length b) 8 then Ok (from_bytes b) else Raise StructError.

(** The binary64 pattern of the float [3.14]. *)
Definition bits_3_14 : Z := 0x40091EB851EB851F.

(** [str(n)] for a non-negative [int], as used by the f-strings. *)
Definition str_of_int (n : Z) : pystr :=
  lit (NilZero.string_of_uint (N.to_uint (Z.to_N n))).

End Py.
Import Py.

(** ** The stateless converter bodies of [flare/converters.py] *)

Module Codec.

(** [StringConverter.to_str] *)
Definition StringConverter_to_str (obj : pystr) : result pystr :=
  let length := len obj in
  rbind (to_bytes length 4) (fun b =>
  let byte_length := decode_latin1 b in
  Ok (byte_length ++ obj)).

(** [StringConverter.from_str] *)
Definition StringConverter_from_str (obj : pystr) : result (pystr * pystr) :=
  rbind (index0 obj) (fun c =>
  rbind (encode_latin1 [c]) (fun b =>
  let length := Z.to_nat (from_bytes b) in
  let string := slice 1 (length + 1) obj in
  let remaining := slice_from (length + 1) obj in
  Ok (remaining, string))).

(** [FloatConverter.to_str] *)
Definition FloatConverter_to_str (obj : Z) : pystr :=
  decode_latin1 (struct_pack_d obj).

(** [FloatConverter.from_str] *)
Definition FloatConverter_from_str (obj : pystr) : result (pystr * Z) :=
  let remaining := slice_from 2 obj in
  let obj := slice 0 2 obj in
  rbind (encode_latin1 obj) (fun b =>
  rbind (struct_unpack_d b) (fun x =>
  Ok (remaining, x))).

(** [BoolConverter.to_str] *)
Definition BoolConverter_to_str (obj : bool) : pystr :=
  if obj then lit "t" else lit "f".

(** [BoolConverter.from_str] *)
Definition BoolConverter_from_str (obj : pystr) : result (pystr * bool) :=
  rbind (index0 obj) (fun c =>
  let remaining := slice_from 1 obj in
  Ok (remaining, bool_decide ([c] = lit "t"))).

End Codec.
Import Codec.

(** ** Type hints, classes and dynamic values *)

Module Types.

(** A class object: its [__name__], the names along its method resolution
    order (its own name first) and, for an [enum.Enum] subclass, the
    integer values of its members.  Distinct classes carry distinct
    names. *)
Record pyclass : Type := PyClass {
  cname : string;
  cmro : list string;
  cmembers : list Z
}.

#[global] Instance pyclass_eq_dec : EqDecision pyclass.
Proof. solve_decision. Defined.

Definition int_class : pyclass := PyClass "int" ["int"; "object"]%string [].
Definition bool_class : pyclass := PyClass "bool" ["bool"; "int"; "object"]%string [].
Definition str_class : pyclass := PyClass "str" ["str"; "object"]%string [].
Definition float_class : pyclass := PyClass "float" ["float"; "object"]%string [].
Definition Enum_class : pyclass := PyClass "Enum" ["Enum"; "object"]%string [].
Definition NoneType_class : pyclass := PyClass "NoneType" ["NoneType"; "object"]%string [].
Definition UnionType_class : pyclass := PyClass "UnionType" ["UnionType"; "object"]%string [].

(** A class of the application for which nothing is registered. *)
Definition A_class : pyclass := PyClass "A" ["A"; "object"]%string [].

(** [issubclass(c, k)] for two classes. *)
Definition class_issubclass (c k : pyclass) : bool :=
  bool_decide (cname k ∈ cmro c).

(** The two spellings of a union: [typing.Union[X, Y]] and [X | Y]. *)
Inductive union_form : Type := TypingUnion | PipeUnion.

(** A type hint, as [get_converter] can receive it.
    - [TClass c]: a class;
    - [TSpecial n]: a special form that is not a class, such as
      [typing.Literal];
    - [TUnion f args]: a union of [args];
    - [TAlias o args]: a parameterised form [o[args]], such as
      [list[int]] or [typing.Literal["a"]]. *)
#[warnings="-register-all"] Inductive hint : Type :=
| TClass (c : pyclass)
| TSpecial (name : string)
| TUnion (form : union_form) (args : list hint)
| TAlias (origin : hint) (args : list hint).

(** Induction on a hint with the induction hypothesis for every
    argument of a union or of a parameterised form. *)
Fixpoint hint_nested_ind (P : hint -> Prop)
    (HC : forall c, P (TClass c))
    (HS : forall n, P (TSpecial n))
    (HU : forall f args, Forall P args -> P (TUnion f args))
    (HA : forall o args, P o -> Forall P args -> P (TAlias o args))
    (h : hint) : P h :=
  let all :=
    fix all (l : list hint) : Forall P l :=
      match l with
      | [] => @List.Forall_nil hint P
      | x :: l' => @List.Forall_cons hint P x l' (hint_nested_ind P HC HS HU HA x) (all l')
      end in
  match h with
  | TClass c => HC c
  | TSpecial n => HS n
  | TUnion f args => HU f args (all args)
  | TAlias o args => HA o args (hint_nested_ind P HC HS HU HA o) (all args)
  end.

Definition typing_Union : hint := TSpecial "Union".
Definition typing_Literal : hint := TSpecial "Literal".

(** [a == b] on type hints, which is also the equality the dictionaries
    and the cache use on their keys.  Classes and special forms compare
    by identity, parameterised forms by origin and arguments, and unions
    by the set of their alternatives: the typing documentation states
    that the argument order is ignored when unions are compared, so
    [Union[int, str] == Union[str, int]], and [int | str] equals both. *)
Fixpoint hint_eqb (a b : hint) : bool :=
  match a, b with
  | TClass c, TClass d => bool_decide (c = d)
  | TSpecial m, TSpecial n => String.eqb m n
  | TUnion _ xs, TUnion _ ys =>
      forallb (fun x => existsb (fun y => hint_eqb x y) ys) xs
      && forallb (fun y => existsb (fun x => hint_eqb x y) xs) ys
  | TAlias o xs, TAlias p ys =>
      hint_eqb o p
      && (fix all2 (xs ys : list hint) : bool :=
            match xs, ys with
            | [], [] => true
            | x :: xs', y :: ys' => hint_eqb x y && all2 xs' ys'
            | _, _ => false
            end) xs ys
  | _, _ => false
  end.

(** [typing.get_origin] *)
Definition get_origin (obj : hint) : option hint :=
  match obj with
  | TUnion TypingUnion _ => Some typing_Union
  | TUnion PipeUnion _ => Some (TClass UnionType_class)
  | TAlias o _ => Some o
  | _ => None
  end.

(** [typing.get_args] *)
Definition get_args (obj : hint) : list hint :=
  match obj with
  | TUnion _ args => args
  | TAlias _ args => args
  | _ => []
  end.

(** [inspect.isclass] *)
Definition isclass (obj : hint) : bool :=
  match obj with
  | TClass _ => true
  | _ => false
  end.

Definition as_class (obj : hint) : option pyclass :=
  match obj with
  | TClass c => Some c
  | _ => None
  end.

(** [issubclass(c, cls)] for a class [c]: [cls] must be a class or a
    union of classes, anything else is a [TypeError]. *)
Definition issubclass (c : pyclass) (cls : hint) : result bool :=
  match cls with
  | TClass k => Ok (class_issubclass c k)
  | TUnion _ args =>
      if forallb isclass args
      then Ok (existsb (fun k => class_issubclass c k) (omap as_class args))
      else Raise TypeError
  | _ => Raise TypeError
  end.

(** What [getattr(type_, '__name__', type_)] shows inside the f-string:
    the [__name__] where there is one, the [repr] for [X | Y] (its
    pieces shown by their names). *)
Fixpoint display_name (obj : hint) : string :=
  match obj with
  | TClass c => cname c
  | TSpecial n => n
  | TUnion TypingUnion args =>
      match args with
      | [_; TClass k] => if bool_decide (k = NoneType_class) then "Optional" else "Union"
      | _ => "Union"
      end
  | TUnion PipeUnion args =>
      String.concat " | " (map display_name args)
  | TAlias o _ => display_name o
  end.

(** A dynamic value.  An enum member is its class and its integer
    value. *)
Inductive value : Type :=
| VNone
| VBool (b : bool)
| VInt (z : Z)
| VFloat (bits : Z)
| VStr (s : pystr)
| VEnum (cls : pyclass) (v : Z).

(** [float(z)] as a binary64 pattern: round to nearest even; an integer
    beyond the largest double is an [OverflowError]. *)
Definition float_of_int (z : Z) : result Z :=
  match binary_normalize 53 1024 z 0 false with
  | S754_zero s => Ok (if s then 2 ^ 63 else 0)
  | S754_finite s m e =>
      let sign := if s then 2 ^ 63 else 0 in
      if Z.pos m <? 2 ^ 52 then Ok (sign + Z.pos m)
      else Ok (sign + (e + 1075) * 2 ^ 52 + (Z.pos m - 2 ^ 52))
  | _ => Raise OverflowError
  end.

(** The truth value of an object, as [if obj] tests it. *)
Definition truthy (obj : value) : bool :=
  match obj with
  | VNone => false
  | VBool b => b
  | VInt z => negb (z =? 0)
  | VFloat bits => negb (bits mod 2 ^ 63 =? 0)
  | VStr s => negb (bool_decide (s = []))
  | VEnum _ _ => true
  end.

(** [cls(z)], the call that [cls.from_bytes] and the enum lookup end in:
    an enum class looks the member up by value, [bool] tests for zero,
    [int] and its other subclasses keep the integer. *)
Definition construct (cls : pyclass) (z : Z) : result value :=
  if class_issubclass cls Enum_class then
    if bool_decide (z ∈ cmembers cls) then Ok (VEnum cls z) else Raise ValueError
  else if bool_decide (cls = bool_class) then Ok (VBool (negb (z =? 0)))
  else if class_issubclass cls int_class then Ok (VInt z)
  else Raise TypeError.

End Types.
Import Types.

(** ** The registry, the resolution cache and [get_converter] *)

Module Registry.

(** A converter class written by a user of the library: its two methods,
    which see the bound type [self.type].  A method that returns an
    awaitable is represented by the value the awaitable resolves to. *)
Record user_impl : Type := UserImpl {
  u_to_str : hint -> value -> result pystr;
  u_from_str : hint -> pystr -> result (pystr * value)
}.

(** The subclasses of [Converter]. *)
Inductive conv_class : Type :=
| IntConverter
| FloatConverter
| StringConverter
| EnumConverter
| BoolConverter
| UserConverter (name : string) (impl : user_impl).

(** A converter instance: [oid] is the identity of the object ([a is b]
    exactly when the two [oid] agree), [ctype] is [self.type]. *)
Record converter : Type := Converter {
  oid : nat;
  cclass : conv_class;
  ctype : hint
}.

(** What the decoding side does, in order: each call of a [from_str]
    method, and the [print] of [deserialize]. *)
Inductive event : Type :=
| EvFromStr (self : converter) (obj : pystr)
| EvPrint (transformed_args : list (pystr * value)).

(** The state of the module: the dictionary [_converters] in insertion
    order, the entries of the [lru_cache] of [get_converter] with the most
    recently used first, and the number of converter objects made so
    far. *)
Record state : Type := State {
  _converters : list (hint * (conv_class * bool));
  lru : list (hint * converter);
  next_oid : nat;
  trace : list event
}.

Definition M (A : Type) : Type := state -> result A * state.

Definition ret {A} (a : A) : M A := fun st => (Ok a, st).
Definition raise {A} (e : exc) : M A := fun st => (Raise e, st).
Definition bind {A B} (m : M A) (k : A -> M B) : M B :=
  fun st =>
    match m st with
    | (Ok a, st') => k a st'
    | (Raise e, st') => (Raise e, st')
    end.
Definition lift {A} (r : result A) : M A := fun st => (r, st).
Definition record_event (ev : event) (st : state) : state :=
  State (_converters st) (lru st) (next_oid st) (trace st ++ [ev]).
Definition log (ev : event) : M unit :=
  fun st => (Ok tt, record_event ev st).

Declare Scope py_scope.
Delimit Scope py_scope with py.
Notation "'let*' x := m 'in' k" := (bind m (fun x => k))
  (at level 10, x name, m at level 100, k at level 200) : py_scope.
Notation "'let*' ' pat := m 'in' k" := (bind m (fun x => match x with pat => k end))
  (at level 10, pat pattern, m at level 100, k at level 200) : py_scope.
Local Open Scope py_scope.

(** [k in d] and [d[k]] on a dictionary keyed by type hints. *)
Fixpoint dict_get {V} (k : hint) (d : list (hint * V)) : option V :=
  match d with
  | [] => None
  | (k', v) :: d' => if hint_eqb k' k then Some v else dict_get k d'
  end.

(** [d[k] = v]: an equal key keeps its place and takes the new value, a
    new key goes last. *)
Fixpoint dict_set {V} (k : hint) (v : V) (d : list (hint * V)) : list (hint * V) :=
  match d with
  | [] => [(k, v)]
  | (k', v') :: d' =>
      if hint_eqb k' k then (k', v) :: d' else (k', v') :: dict_set k v d'
  end.

(** [add_converter]: the registration, then [get_converter.cache_clear()]. *)
Definition add_converter (t : hint) (converter : conv_class) (supports_subclass : bool)
  : M unit :=
  fun st =>
    (Ok tt,
     State (dict_set t (converter, supports_subclass) (_converters st))
           [] (next_oid st) (trace st)).

(** [_any_issubclass] *)
Definition _any_issubclass (t cls : hint) : result bool :=
  match t with
  | TClass c => issubclass c cls
  | _ => Ok false
  end.

(** [_is_union]: the origin is [types.UnionType] or [typing.Union]. *)
Definition _is_union (obj : hint) : bool :=
  match get_origin obj with
  | Some (TClass c) => bool_decide (c = UnionType_class)
  | Some (TSpecial n) => String.eqb n "Union"
  | _ => false
  end.

(** [_get_left] *)
Definition _get_left (obj : hint) : result hint :=
  if negb (_is_union obj) then Ok obj
  else match get_args obj with
       | [] => Raise IndexError
       | a :: _ => Ok a
       end.

(** [converter(origin)]: a new object. *)
Definition new_converter (cls : conv_class) (type : hint) : M converter :=
  fun st =>
    (Ok (Converter (next_oid st) cls type),
     State (_converters st) (lru st) (S (next_oid st)) (trace st)).

(** The [for] loop of [get_converter] over [_converters.items()]: the
    class of the first registration that supports subclasses and whose
    key has [origin] as a subclass. *)
Fixpoint scan_subclass (origin : hint) (items : list (hint * (conv_class * bool)))
  : result (option conv_class) :=
  match items with
  | [] => Ok None
  | (k, (converter, supports_subclass)) :: items' =>
      if supports_subclass then
        rbind (_any_issubclass origin k) (fun b =>
        if b then Ok (Some converter) else scan_subclass origin items')
      else scan_subclass origin items'
  end.

Definition not_found_message (type_ : hint) : pystr :=
  lit "Could not find converter for type `" ++ lit (display_name type_) ++ lit "`.".

(** The body of [get_converter], the function the cache wraps. *)
Definition get_converter_uncached (type_ : hint) : M converter :=
  let* origin := lift (_get_left type_) in
  let origin := match get_origin origin with
                | Some origin_ => origin_
                | None => origin
                end in
  fun st =>
    match dict_get origin (_converters st) with
    | Some (converter, _) => new_converter converter origin st
    | None =>
        match scan_subclass origin (_converters st) with
        | Ok (Some converter) => new_converter converter origin st
        | Ok None => (Raise (ConverterError (not_found_message type_)), st)
        | Raise e => (Raise e, st)
        end
    end.

Definition lru_maxsize : nat := 128.

(** The cache entry stored under a key equal to [k], and the other
    entries. *)
Fixpoint lru_find (k : hint) (c : list (hint * converter))
  : option ((hint * converter) * list (hint * converter)) :=
  match c with
  | [] => None
  | (k', v) :: c' =>
      if hint_eqb k' k then Some ((k', v), c')
      else match lru_find k c' with
           | Some (e, rest) => Some (e, (k', v) :: rest)
           | None => None
           end
  end.

(** [get_converter], under [functools.lru_cache(maxsize=128)]: a call
    whose argument equals a cached key returns the stored result and
    makes that entry the most recent one; any other call runs the body
    and stores what it returns, dropping the least recently used entry
    when the cache is full.  A call that raises stores nothing. *)
Definition get_converter (type_ : hint) : M converter :=
  fun st =>
    match lru_find type_ (lru st) with
    | Some ((k, v), rest) =>
        (Ok v, State (_converters st) ((k, v) :: rest) (next_oid st) (trace st))
    | None =>
        match get_converter_uncached type_ st with
        | (Ok v, st') =>
            (Ok v,
             State (_converters st')
                   ((type_, v) :: take (lru_maxsize - 1) (lru st'))
                   (next_oid st') (trace st'))
        | (Raise e, st') => (Raise e, st')
        end
    end.

(** ** The methods of the converters, dispatched on the class of [self]

    [depth] is the number of nested calls still allowed: the methods of
    [IntConverter] and [EnumConverter] call whatever converter the
    registry holds for [str] and [int], and the interpreter ends a chain
    of such calls that does not end by itself with [RecursionError]. *)

Definition int_of_value (obj : value) : result Z :=
  match obj with
  | VInt z => Ok z
  | VBool b => Ok (Z.b2z b)
  | _ => Raise AttributeError
  end.

Fixpoint to_str (depth : nat) (self : converter) (obj : value) : M pystr :=
  match depth with
  | O => raise RecursionError
  | S depth' =>
      match cclass self with
      | IntConverter =>
          let* z := lift (int_of_value obj) in
          let byte_length := bit_length z / 8 + 1 in
          let* str_converter := get_converter (TClass str_class) in
          let* b := lift (to_bytes z byte_length) in
          to_str depth' str_converter (VStr (decode_latin1 b))
      | FloatConverter =>
          match obj with
          | VFloat bits => ret (FloatConverter_to_str bits)
          | VInt z => let* bits := lift (float_of_int z) in ret (FloatConverter_to_str bits)
          | VBool b => let* bits := lift (float_of_int (Z.b2z b)) in ret (FloatConverter_to_str bits)
          | _ => raise StructError
          end
      | StringConverter =>
          match obj with
          | VStr s => lift (StringConverter_to_str s)
          | _ => raise TypeError
          end
      | EnumConverter =>
          let* int_converter := get_converter (TClass int_class) in
          match obj with
          | VEnum _ v => to_str depth' int_converter (VInt v)
          | _ => raise AttributeError
          end
      | BoolConverter => ret (BoolConverter_to_str (truthy obj))
      | UserConverter _ impl => lift (u_to_str impl (ctype self) obj)
      end
  end.

Fixpoint from_str (depth : nat) (self : converter) (obj : pystr)
  : M (pystr * value) :=
  match depth with
  | O => raise RecursionError
  | S depth' =>
      let* _ := log (EvFromStr self obj) in
      match cclass self with
      | IntConverter =>
          let* str_converter := get_converter (TClass str_class) in
          let* '(remaining, obj) := from_str depth' str_converter obj in
          match ctype self with
          | TClass cls =>
              if class_issubclass cls int_class then
                match obj with
                | VStr s =>
                    let* b := lift (encode_latin1 s) in
                    let* v := lift (construct cls (from_bytes b)) in
                    ret (remaining, v)
                | _ => raise AttributeError
                end
              else raise AttributeError
          | _ => raise AttributeError
          end
      | FloatConverter =>
          let* '(remaining, x) := lift (FloatConverter_from_str obj) in
          ret (remaining, VFloat x)
      | StringConverter =>
          let* '(remaining, string) := lift (StringConverter_from_str obj) in
          ret (remaining, VStr string)
      | EnumConverter =>
          let* int_converter := get_converter (TClass int_class) in
          let* '(remaining, enum) := from_str depth' int_converter obj in
          match ctype self, int_of_value enum with
          | TClass cls, Ok z => let* v := lift (construct cls z) in ret (remaining, v)
          | _, _ => raise TypeError
          end
      | BoolConverter =>
          let* '(remaining, b) := lift (BoolConverter_from_str obj) in
          ret (remaining, VBool b)
      | UserConverter _ impl => lift (u_from_str impl (ctype self) obj)
      end
  end.

(** The state once [flare/converters.py] has been imported: the six
    [add_converter] calls at the end of the module, in order. *)
Definition empty_state : state := State [] [] 0 [].

Definition module_init : M unit :=
  let* _ := add_converter (TClass float_class) FloatConverter true in
  let* _ := add_converter (TClass int_class) IntConverter true in
  let* _ := add_converter (TClass str_class) StringConverter true in
  let* _ := add_converter typing_Literal StringConverter false in
  let* _ := add_converter (TClass Enum_class) EnumConverter true in
  add_converter (TClass bool_class) BoolConverter false.

Definition module_state : state := snd (module_init empty_state).

End Registry.
Import Registry.
Local Open Scope py_scope.

(** ** [flare/internal/serde.py] *)

Module Serde.

(** A component class, as far as [deserialize] looks at it. *)
Record component : Type := Component {
  component_name : string;
  _dataclass_annotations : list (pystr * hint)
}.

(** Modelled from the spec: [flare.utils.gather_iter] is not among the
    sources.  The spec has the awaited results joined back in the order
    of the fields; the coroutines given to it here never suspend, so
    they run one after the other, in that order, and the first exception
    is the one the caller sees. *)
Fixpoint gather_iter {A} (coros : list (M A)) : M (list A) :=
  match coros with
  | [] => ret []
  | c :: coros' =>
      let* x := c in
      let* xs := gather_iter coros' in
      ret (x :: xs)
  end.

(** The inner function [serialize_one] of [serialize]. *)
Definition serialize_one (depth : nat) (kwargs : gmap pystr value)
    (k : pystr) (v : hint) : M pystr :=
  let val := default VNone (kwargs !! k) in
  let* converter := get_converter v in
  to_str depth converter val.

Definition too_long_message (cookie : pystr) (out : pystr) : pystr :=
  lit "The serialized custom_id for component " ++ cookie
  ++ lit " may be too long."
  ++ lit " Try reducing the number of parameters the component takes."
  ++ lit " Got length: " ++ str_of_int (len out)
  ++ lit " Expected length: 100 or less".

(** [serialize] *)
Definition serialize (depth : nat) (cookie : pystr)
    (types : list (pystr * hint)) (kwargs : gmap pystr value) : M pystr :=
  let* fragments :=
    gather_iter (map (fun '(k, v) => serialize_one depth kwargs k v) types) in
  let out := concat fragments in
  if 100 <? len out
  then raise (SerializerError (too_long_message cookie out))
  else ret out.

(** The fragments of the fields, as the spec speaks of them: for each
    field of the schema, in its order, the converter that
    [get_converter] returns for the hint of the field, and the string
    its [to_str] returns for the value of the field. *)
Inductive field_fragments (depth : nat) (kwargs : gmap pystr value)
  : list (pystr * hint) -> state -> list pystr -> state -> Prop :=
| fragments_nil (st : state) :
    field_fragments depth kwargs [] st [] st
| fragments_cons (k : pystr) (v : hint) (types : list (pystr * hint))
    (st st1 st2 st3 : state) (converter : converter)
    (fragment : pystr) (fragments : list pystr) :
    get_converter v st = (Ok converter, st1) ->
    to_str depth converter (default VNone (kwargs !! k)) st1 = (Ok fragment, st2) ->
    field_fragments depth kwargs types st2 fragments st3 ->
    field_fragments depth kwargs ((k, v) :: types) st (fragment :: fragments) st3.

Definition missing_cookie_message (cookie : pystr) : pystr :=
  lit "Component with cookie " ++ cookie ++ lit " does not exist.".

(** [transformed_args[k] = value] on the dictionary being built. *)
Fixpoint args_set (k : pystr) (v : value) (d : list (pystr * value))
  : list (pystr * value) :=
  match d with
  | [] => [(k, v)]
  | (k', v') :: d' =>
      if bool_decide (k' = k) then (k', v) :: d' else (k', v') :: args_set k v d'
  end.

(** The [for] loop of [deserialize] over the annotations. *)
Fixpoint decode_fields (depth : nat) (annotations : list (pystr * hint))
    (custom_id : pystr) (transformed_args : list (pystr * value))
  : M (list (pystr * value)) :=
  match annotations with
  | [] => ret transformed_args
  | (k, v) :: annotations' =>
      let* converter := get_converter v in
      let* '(custom_id, value) := from_str depth converter custom_id in
      decode_fields depth annotations' custom_id (args_set k value transformed_args)
  end.

(** [deserialize] *)
Definition deserialize (depth : nat) (custom_id : pystr)
    (component_map : gmap pystr component)
  : M (component * list (pystr * value)) :=
  let* str_converter := get_converter (TClass str_class) in
  let* '(custom_id, cookie) := from_str depth str_converter custom_id in
  match cookie with
  | VStr cookie =>
      match component_map !! cookie with
      | None => raise (SerializerError (missing_cookie_message cookie))
      | Some component_ =>
          let* transformed_args :=
            decode_fields depth (_dataclass_annotations component_) custom_id [] in
          let* _ := log (EvPrint transformed_args) in
          ret (component_, transformed_args)
      end
  | _ => raise AssertionError
  end.

End Serde.
Import Serde.

(** ** Resolution as a function of the registry, and the reachable states *)

Module Dispatch.

(** The hint [get_converter] looks up: the left side of a union, then the
    origin of a parameterised form. *)
Definition reduce (type_ : hint) : result hint :=
  rbind (_get_left type_) (fun origin =>
  Ok (match get_origin origin with
      | Some origin_ => origin_
      | None => origin
      end)).

(** What the body of [get_converter] decides from the registry alone: the
    converter class and the type it binds it to, or the exception. *)
Definition resolve (regs : list (hint * (conv_class * bool))) (type_ : hint)
  : result (conv_class * hint) :=
  rbind (reduce type_) (fun origin =>
  match dict_get origin regs with
  | Some (converter, _) => Ok (converter, origin)
  | None =>
      match scan_subclass origin regs with
      | Ok (Some converter) => Ok (converter, origin)
      | Ok None => Raise (ConverterError (not_found_message type_))
      | Raise e => Raise e
      end
  end).

(** One step of the module state: a registration, a resolution, or the
    record of a decoding call. *)
Inductive step : state -> state -> Prop :=
| step_add (t : hint) (converter : conv_class) (supports_subclass : bool) (st : state) :
    step st (snd (add_converter t converter supports_subclass st))
| step_get (type_ : hint) (st : state) :
    step st (snd (get_converter type_ st))
| step_log (ev : event) (st : state) :
    step st (record_event ev st).

(** The states the module can be in: it starts empty and moves by steps. *)
Inductive reachable : state -> Prop :=
| reachable_empty : reachable empty_state
| reachable_step (st st' : state) : reachable st -> step st st' -> reachable st'.

(** [st'] comes after [st] by resolutions and records of decoding calls
    alone, which is all that the methods of the converters, [serialize] and
    [deserialize] do to the state. *)
Inductive runs : state -> state -> Prop :=
| runs_refl (st : state) : runs st st
| runs_get (type_ : hint) (st st' : state) :
    runs st st' -> runs st (snd (get_converter type_ st'))
| runs_log (ev : event) (st st' : state) :
    runs st st' -> runs st (record_event ev st').

(** The cache holds at most [lru_maxsize] entries; each holds an object made
    before, no object twice, under a key that the registry resolves to the
    class and the bound type of that object. *)
Record cache_ok (st : state) : Prop := CacheOk {
  cache_bounded : (length (lru st) <= lru_maxsize)%nat;
  cache_objects : forall k v, (k, v) ∈ lru st -> (oid v < next_oid st)%nat;
  cache_distinct : NoDup (map (fun e => oid (snd e)) (lru st));
  cache_coherent : forall k v, (k, v) ∈ lru st ->
                   resolve (_converters st) k = Ok (cclass v, ctype v)
}.

(** The converter class for a class [c] under the six registrations of the
    module: [bool] has its own converter; any other class takes the
    converter of the first of [float], [int], [str] and [Enum], in the
    order they were registered, that it is a subclass of. *)
Definition builtin_dispatch (c : pyclass) : option conv_class :=
  if bool_decide (c = bool_class) then Some BoolConverter
  else if class_issubclass c float_class then Some FloatConverter
  else if class_issubclass c int_class then Some IntConverter
  else if class_issubclass c str_class then Some StringConverter
  else if class_issubclass c Enum_class then Some EnumConverter
  else None.

End Dispatch.
Import Dispatch.

(** ** Schemas of boolean fields *)

Module Schemas.

(** A component whose fields are all [bool]: the names of the fields with
    their values, and from them the schema, the keyword arguments, the
    dictionary [deserialize] builds and the characters of the fields. *)
Definition bool_schema (fields : list (pystr * bool)) : list (pystr * hint) :=
  map (fun f => (fst f, TClass bool_class)) fields.

Definition bool_kwargs (fields : list (pystr * bool)) : gmap pystr value :=
  list_to_map (map (fun f => (fst f, VBool (snd f))) fields).

Definition bool_args (fields : list (pystr * bool)) : list (pystr * value) :=
  map (fun f => (fst f, VBool (snd f))) fields.

Definition bool_fragments (fields : list (pystr * bool)) : pystr :=
  concat (map (fun f => BoolConverter_to_str (snd f)) fields).

(** A reachable state whose registry is the one the module sets up. *)
Definition builtin_state (st : state) : Prop :=
  reachable st /\ _converters st = _converters module_state.

End Schemas.
Import Schemas.

(** * Properties *)

(** ** Bytes and Latin-1 *)

Lemma byte_of_Z_to_N (z : Z) :
  0 <= z < 256 -> Byte.to_N (byte_of_Z z) = Z.to_N z.
Proof.
  intros Hz. unfold byte_of_Z.
  destruct (Byte.of_N (Z.to_N z)) as [b|] eqn:E.
  - now apply Byte.to_of_N.
  - apply Byte.of_N_None_iff in E. lia.
Qed.

Lemma length_le_bytes (n : nat) (v : Z) : length (le_bytes n v) = n.
Proof.
  revert v. induction n as [|n IH]; intros v; simpl; [reflexivity|].
  now rewrite IH.
Qed.

Lemma length_decode_latin1 (b : list byte) : length (decode_latin1 b) = length b.
Proof. unfold decode_latin1. now rewrite length_map. Qed.

Lemma length_encode_latin1 (s : pystr) (b : list byte) :
  encode_latin1 s = Ok b -> length b = length s.
Proof.
  revert b. induction s as [|c s IH]; intros b; simpl.
  - intros [= <-]. reflexivity.
  - destruct (Byte.of_N c); [|discriminate].
    destruct (encode_latin1 s) as [bs|]; simpl; [|discriminate].
    intros [= <-]. simpl. now rewrite (IH bs).
Qed.

Lemma encode_decode_latin1 (b : list byte) : encode_latin1 (decode_latin1 b) = Ok b.
Proof.
  unfold decode_latin1.
  induction b as [|x b IH]; cbn [map encode_latin1]; [reflexivity|].
  now rewrite Byte.of_to_N, IH.
Qed.

(** ** The string converter *)

(** What [StringConverter.to_str] returns when it returns: four characters
    of length, then the string. *)
Lemma StringConverter_to_str_Ok (obj e : pystr) :
  StringConverter_to_str obj = Ok e ->
  e = decode_latin1 (le_bytes 4 (len obj)) ++ obj.
Proof.
  unfold StringConverter_to_str, to_bytes. simpl (4 <? 0).
  destruct (len obj <? 0); [discriminate|].
  destruct (256 ^ 4 <=? len obj); [discriminate|].
  simpl. now intros [= <-].
Qed.

(** [StringConverter.from_str] reads one character of length: on the output
    of [to_str] followed by [suffix] it returns a remainder that is at least
    three characters longer than [suffix]. *)
Lemma StringConverter_from_str_remainder (obj suffix e remaining string : pystr) :
  StringConverter_to_str obj = Ok e ->
  StringConverter_from_str (e ++ suffix) = Ok (remaining, string) ->
  (length suffix + 3 <= length remaining)%nat.
Proof.
  intros He Hd. apply StringConverter_to_str_Ok in He. subst e.
  unfold StringConverter_from_str in Hd.
  change (le_bytes 4 (len obj)) with
    (byte_of_Z (len obj mod 256) :: le_bytes 3 (len obj / 256)) in Hd.
  cbn [decode_latin1 map app index0 rbind encode_latin1] in Hd.
  rewrite Byte.of_to_N in Hd. cbn [rbind from_bytes] in Hd.
  injection Hd as Hr _. subst remaining.
  assert (Hm : 0 <= len obj mod 256 < 256) by (apply Z.mod_pos_bound; lia).
  rewrite byte_of_Z_to_N in * by exact Hm.
  assert (Hle : len obj mod 256 <= len obj).
  { apply Z.mod_le; unfold len; lia. }
  unfold slice_from. rewrite length_drop. cbn [length].
  rewrite length_app. unfold len in *. lia.
Qed.

(** The round trip through the string converter never holds: the decoder
    never hands back the suffix it was given. *)
Lemma StringConverter_roundtrip_never (obj suffix e : pystr) :
  StringConverter_to_str obj = Ok e ->
  StringConverter_from_str (e ++ suffix) <> Ok (suffix, obj).
Proof.
  intros He Hd.
  pose proof (StringConverter_from_str_remainder _ _ _ _ _ He Hd). lia.
Qed.

(** C1 (the code departs from the claim): encoding ["hi"] gives the four
    length characters [2 0 0 0] and then [h i]; decoding that, whatever
    follows it, reads the length 2 from the first character alone, returns
    the two characters after it, which are zeros of the length, as the
    string, and leaves the last length character and ["hi"] itself in front
    of the suffix.  The round trip of the claim, which would return
    [(suffix, "hi")], does not hold. *)
Theorem StringConverter_roundtrip_hi (suffix : pystr) :
  StringConverter_to_str (lit "hi") = Ok ([2; 0; 0; 0]%N ++ lit "hi")
  /\ StringConverter_from_str (([2; 0; 0; 0]%N ++ lit "hi") ++ suffix)
     = Ok ([0]%N ++ lit "hi" ++ suffix, [0; 0]%N)
  /\ StringConverter_from_str (([2; 0; 0; 0]%N ++ lit "hi") ++ suffix)
     <> Ok (suffix, lit "hi").
Proof.
  split; [reflexivity|]. split; [reflexivity|]. discriminate.
Qed.

(** ** The float converter *)

(** [FloatConverter.from_str] never returns: the two characters it slices
    off are never the eight bytes [struct.unpack] asks for. *)
Lemma FloatConverter_from_str_raises (obj : pystr) :
  exists e, FloatConverter_from_str obj = Raise e.
Proof.
  unfold FloatConverter_from_str.
  destruct (encode_latin1 (slice 0 2 obj)) as [b|e] eqn:E; simpl; [|eauto].
  apply length_encode_latin1 in E.
  unfold slice in E. rewrite length_take, length_drop in E.
  unfold struct_unpack_d.
  destruct (Nat.eqb_spec (length b) 8) as [H8|_]; [lia|]. simpl. eauto.
Qed.

(** C3 (the code departs from the claim): [FloatConverter.to_str] packs
    [3.14] into the eight characters of its binary64 pattern, and
    [FloatConverter.from_str] on these eight characters raises
    [struct.error], because it hands only the first two of them to
    [struct.unpack("d", _)]: no float comes back, and the same happens for
    every other float. *)
Theorem FloatConverter_roundtrip_3_14 :
  FloatConverter_to_str bits_3_14 = [31; 133; 235; 81; 184; 30; 9; 64]%N
  /\ FloatConverter_from_str (FloatConverter_to_str bits_3_14) = Raise StructError
  /\ forall v : Z, FloatConverter_from_str (FloatConverter_to_str v) = Raise StructError.
Proof.
  split; [reflexivity|]. split; [reflexivity|].
  intros v. unfold FloatConverter_to_str, FloatConverter_from_str, struct_pack_d.
  cbn [le_bytes decode_latin1 map slice slice_from take drop Nat.sub
       encode_latin1].
  rewrite !Byte.of_to_N. reflexivity.
Qed.

(** ** The boolean converter *)

(** C4: [BoolConverter.to_str] gives the single character [t] for [True]
    and [f] for [False], and [BoolConverter.from_str] on that character
    followed by any suffix returns the suffix and the boolean; the same
    holds when the two methods are called on a converter instance. *)
Theorem BoolConverter_roundtrip :
  BoolConverter_to_str true = lit "t"
  /\ BoolConverter_to_str false = lit "f"
  /\ (forall (b : bool) (suffix : pystr),
        BoolConverter_from_str (BoolConverter_to_str b ++ suffix) = Ok (suffix, b))
  /\ (forall (depth o : nat) (t : hint) (b : bool) (suffix : pystr) (st : state),
        let self := Converter o BoolConverter t in
        fst (to_str (S depth) self (VBool b) st) = Ok (BoolConverter_to_str b)
        /\ fst (from_str (S depth) self (BoolConverter_to_str b ++ suffix) st)
           = Ok (suffix, VBool b)).
Proof.
  split; [reflexivity|]. split; [reflexivity|]. split.
  - intros [] suffix; reflexivity.
  - intros depth o t [] suffix st; split; reflexivity.
Qed.

(** ** Equality of type hints *)

Lemma hint_eqb_refl (h : hint) : hint_eqb h h = true.
Proof.
  induction h as [c|n|f args IH|o args IHo IH] using hint_nested_ind.
  - simpl. now apply bool_decide_eq_true.
  - simpl. apply String.eqb_refl.
  - simpl. rewrite Forall_forall in IH.
    apply andb_true_intro; split; apply forallb_forall; intros x Hx;
      apply existsb_exists; exists x; (split; [exact Hx|]);
      apply IH, list_elem_of_In, Hx.
  - simpl. rewrite IHo. simpl.
    induction IH as [|x l Hx _ IHl]; [reflexivity|].
    now rewrite Hx, IHl.
Qed.

Lemma hint_eqb_trans (a b c : hint) :
  hint_eqb a b = true -> hint_eqb b c = true -> hint_eqb a c = true.
Proof.
  revert b c.
  induction a as [ca|na|fa xs IH|oa xs IHo IH] using hint_nested_ind;
    intros [cb|nb|fb ys|ob ys] [cc|nc|fc zs|oc zs]; cbn [hint_eqb];
    try discriminate.
  - intros H1 H2. apply bool_decide_eq_true in H1, H2.
    apply bool_decide_eq_true. congruence.
  - intros H1 H2. apply String.eqb_eq in H1, H2. apply String.eqb_eq. congruence.
  - rewrite Forall_forall in IH.
    intros [H1a H1b]%andb_prop [H2a H2b]%andb_prop.
    rewrite forallb_forall in H1a, H1b, H2a, H2b.
    apply andb_true_intro; split; apply forallb_forall.
    + intros x Hx.
      destruct (proj1 (existsb_exists _ _) (H1a x Hx)) as (y & Hy & Hxy).
      destruct (proj1 (existsb_exists _ _) (H2a y Hy)) as (z & Hz & Hyz).
      apply existsb_exists. exists z. split; [exact Hz|].
      apply (IH x (proj2 (list_elem_of_In _ _) Hx) y z Hxy Hyz).
    + intros z Hz.
      destruct (proj1 (existsb_exists _ _) (H2b z Hz)) as (y & Hy & Hyz).
      destruct (proj1 (existsb_exists _ _) (H1b y Hy)) as (x & Hx & Hxy).
      apply existsb_exists. exists x. split; [exact Hx|].
      apply (IH x (proj2 (list_elem_of_In _ _) Hx) y z Hxy Hyz).
  - intros [H1o H1]%andb_prop [H2o H2]%andb_prop.
    rewrite (IHo ob oc H1o H2o). cbn [andb].
    clear IHo H1o H2o. revert ys zs H1 H2.
    induction IH as [|x xs Hx _ IHxs]; intros [|y ys] [|z zs]; try discriminate;
      [reflexivity|].
    intros [Hxy H1]%andb_prop [Hyz H2]%andb_prop.
    rewrite (Hx y z Hxy Hyz). cbn [andb]. exact (IHxs ys zs H1 H2).
Qed.

(** ** The resolution cache *)

Lemma lru_find_Some (h k : hint) (v : converter) (c rest : list (hint * converter)) :
  lru_find h c = Some ((k, v), rest) -> hint_eqb k h = true.
Proof.
  revert rest. induction c as [|[k' v'] c IH]; intros rest; simpl; [discriminate|].
  destruct (hint_eqb k' h) eqn:E.
  - intros [= <- <- <-]. exact E.
  - destruct (lru_find h c) as [[e r]|]; [|discriminate].
    intros [= -> <-]. now apply (IH r).
Qed.

Lemma lru_find_front (h k : hint) (v : converter) (rest : list (hint * converter)) :
  hint_eqb k h = true -> lru_find h ((k, v) :: rest) = Some ((k, v), rest).
Proof. intros E. simpl. now rewrite E. Qed.

(** The body of [get_converter] returns an object only by making one. *)
Lemma get_converter_uncached_Ok (type_ : hint) (st st' : state) (c : converter) :
  get_converter_uncached type_ st = (Ok c, st') ->
  oid c = next_oid st
  /\ st' = State (_converters st) (lru st) (S (next_oid st)) (trace st).
Proof.
  unfold get_converter_uncached, Registry.bind, lift.
  destruct (_get_left type_) as [origin|e]; [|discriminate].
  destruct (dict_get _ (_converters st)) as [[cls sub]|].
  - unfold new_converter. intros [= <- <-]. split; reflexivity.
  - destruct (scan_subclass _ (_converters st)) as [[cls|]|e]; try discriminate.
    unfold new_converter. intros [= <- <-]. split; reflexivity.
Qed.

(** Once [get_converter] has returned a converter for a hint, the next
    call with any hint that equals it returns that same object and makes
    none: the body does not run. *)
Lemma get_converter_equal_key_cached
    (h1 h2 : hint) (st st1 : state) (c : converter) :
  get_converter h1 st = (Ok c, st1) ->
  hint_eqb h1 h2 = true ->
  exists st2, get_converter h2 st1 = (Ok c, st2) /\ next_oid st2 = next_oid st1.
Proof.
  intros Hget Heq. revert Hget. unfold get_converter at 1.
  destruct (lru_find h1 (lru st)) as [[[k v] rest]|] eqn:F.
  - intros [= <- <-]. apply lru_find_Some in F.
    unfold get_converter. cbn [lru].
    rewrite (lru_find_front _ _ _ _ (hint_eqb_trans _ _ _ F Heq)).
    eexists. split; reflexivity.
  - destruct (get_converter_uncached h1 st) as [[v|e] st'] eqn:U; [|discriminate].
    intros [= <- <-].
    unfold get_converter. cbn [lru]. rewrite (lru_find_front _ _ _ _ Heq).
    eexists. split; reflexivity.
Qed.

(** C5, as the code has it: a call of [get_converter] that returns a
    converter has either missed the cache, and then the converter is a new
    object, or hit it, and then the converter is the object stored in the
    cache and no object was made; in both cases the next call with the same
    hint returns that same object again and makes none: the cache stores
    the instance. *)
Theorem get_converter_returns_cached_instance
    (type_ : hint) (st st1 : state) (c : converter) :
  get_converter type_ st = (Ok c, st1) ->
  (lru_find type_ (lru st) = None ->
     oid c = next_oid st /\ next_oid st1 = S (next_oid st))
  /\ (forall k v rest, lru_find type_ (lru st) = Some ((k, v), rest) ->
        c = v /\ next_oid st1 = next_oid st)
  /\ exists st2, get_converter type_ st1 = (Ok c, st2)
                 /\ next_oid st2 = next_oid st1.
Proof.
  intros Hget.
  pose proof (get_converter_equal_key_cached _ _ _ _ _ Hget (hint_eqb_refl type_))
    as Hnext.
  revert Hget. unfold get_converter at 1.
  destruct (lru_find type_ (lru st)) as [[[k v] rest]|] eqn:F.
  - intros [= <- <-]. split; [discriminate|]. split; [|exact Hnext].
    intros k' v' rest' [= <- <- <-]. split; reflexivity.
  - destruct (get_converter_uncached type_ st) as [[v|e] st'] eqn:U; [|discriminate].
    intros [= <- <-]. apply get_converter_uncached_Ok in U as [Hoid ->].
    split; [intros _; split; [exact Hoid|reflexivity]|].
    split; [discriminate|exact Hnext].
Qed.

Lemma get_converter_returns_cached_instance_witness :
  exists c st1 st2,
    get_converter (TClass int_class) module_state = (Ok c, st1)
    /\ get_converter (TClass int_class) st1 = (Ok c, st2)
    /\ next_oid st2 = next_oid st1.
Proof.
  eexists _, _.
  destruct (get_converter_returns_cached_instance (TClass int_class) module_state
              _ _ eq_refl) as (_ & _ & st2 & H2 & Hn).
  exists st2. split; [reflexivity|]. split; [exact H2|exact Hn].
Defined.

(** C5, against the claim as stated: in the state the module is imported
    in, two calls [get_converter(int)] in a row return the same object; the
    second call, which hits the cache, makes no new converter. *)
Lemma get_converter_not_fresh_on_cache_hit :
  exists c1 c2 st1 st2,
    get_converter (TClass int_class) module_state = (Ok c1, st1)
    /\ get_converter (TClass int_class) st1 = (Ok c2, st2)
    /\ oid c1 = oid c2
    /\ ~ (oid c1 <> oid c2).
Proof.
  eexists _, _, _, _. split; [reflexivity|]. split; [reflexivity|].
  split; [reflexivity|]. intros H. now apply H.
Qed.

(** ** Resolution of unions and of unknown types *)

(** On a call that runs the body, a union is resolved as its leftmost
    alternative is: the same class bound to the same type. *)
Lemma get_converter_uncached_union_left
    (f : union_form) (a : hint) (rest : list hint) (st st' : state) (c : converter) :
  _is_union a = false ->
  get_converter_uncached (TUnion f (a :: rest)) st = (Ok c, st')
  <-> get_converter_uncached a st = (Ok c, st').
Proof.
  intros Ha. unfold get_converter_uncached, Registry.bind, lift, _get_left.
  rewrite Ha. replace (_is_union (TUnion f (a :: rest))) with true
    by (destruct f; reflexivity).
  cbn [negb get_args].
  destruct (dict_get _ (_converters st)) as [[cls sub]|]; [reflexivity|].
  destruct (scan_subclass _ (_converters st)) as [[cls|]|e]; try reflexivity.
  split; discriminate.
Qed.

Lemma scan_subclass_none (origin : hint) (items : list (hint * (conv_class * bool))) :
  (forall k c, In (k, (c, true)) items -> _any_issubclass origin k = Ok false) ->
  scan_subclass origin items = Ok None.
Proof.
  induction items as [|[k [c sub]] items IH]; intros H; [reflexivity|].
  cbn [scan_subclass]. destruct sub.
  - rewrite (H k c) by (left; reflexivity). cbn [rbind].
    apply IH. intros k' c' Hin. apply (H k' c'). now right.
  - apply IH. intros k' c' Hin. apply (H k' c'). now right.
Qed.

(** On a call that runs the body: when the reduced hint is no key of the
    registry and no registration that supports subclasses has it as a
    subclass, [get_converter] raises [ConverterError] with the name of the
    hint it was called with, and leaves the state as it was. *)
Lemma get_converter_miss_not_found (type_ left : hint) (st : state) :
  lru_find type_ (lru st) = None ->
  _get_left type_ = Ok left ->
  let origin := match get_origin left with
                | Some origin_ => origin_
                | None => left
                end in
  dict_get origin (_converters st) = None ->
  (forall k c, In (k, (c, true)) (_converters st) ->
               _any_issubclass origin k = Ok false) ->
  get_converter type_ st
  = (Raise (ConverterError
              (lit "Could not find converter for type `"
               ++ lit (display_name type_) ++ lit "`.")), st).
Proof.
  intros Hmiss Hleft origin Hget Hscan.
  unfold get_converter. rewrite Hmiss.
  unfold get_converter_uncached, Registry.bind, lift. rewrite Hleft.
  cbn [rbind]. unfold origin in Hget, Hscan.
  rewrite Hget, (scan_subclass_none _ _ Hscan). reflexivity.
Qed.

(** C6 (the code departs from the claim): with nothing cached,
    [get_converter(int | str)] returns an [IntConverter] bound to [int];
    but once [get_converter(str | int)] has been called, its result, a
    [StringConverter] bound to [str], sits in the cache under a key that
    equals [int | str], and [get_converter(int | str)] returns that very
    object. *)
Theorem get_converter_union_after_reordered_union :
  let int_or_str := TUnion PipeUnion [TClass int_class; TClass str_class] in
  let str_or_int := TUnion PipeUnion [TClass str_class; TClass int_class] in
  fst (get_converter int_or_str module_state)
  = Ok (Converter 0 IntConverter (TClass int_class))
  /\ fst (get_converter str_or_int module_state)
     = Ok (Converter 0 StringConverter (TClass str_class))
  /\ fst (get_converter int_or_str (snd (get_converter str_or_int module_state)))
     = Ok (Converter 0 StringConverter (TClass str_class)).
Proof. repeat split. Qed.

(** C9 (the code departs from the claim): nothing is registered for the
    class [A] and [A] is a subclass of no registered key, so with nothing
    cached [get_converter(Union[A, int])] raises [ConverterError] with the
    name of the hint; but once [get_converter(Union[int, A])] has been
    called, the [IntConverter] it returned sits in the cache under a key
    that equals [Union[A, int]], and [get_converter(Union[A, int])] returns
    it instead of raising. *)
Theorem get_converter_not_found_after_reordered_union :
  let A_or_int := TUnion TypingUnion [TClass A_class; TClass int_class] in
  let int_or_A := TUnion TypingUnion [TClass int_class; TClass A_class] in
  dict_get (TClass A_class) (_converters module_state) = None
  /\ scan_subclass (TClass A_class) (_converters module_state) = Ok None
  /\ fst (get_converter A_or_int module_state)
     = Raise (ConverterError (lit "Could not find converter for type `Union`."))
  /\ fst (get_converter A_or_int (snd (get_converter int_or_A module_state)))
     = Ok (Converter 0 IntConverter (TClass int_class)).
Proof. repeat split. Qed.

(** ** The integer converter *)

Lemma bit_length_nonneg (v : Z) : 0 <= bit_length v.
Proof.
  unfold bit_length. destruct (v =? 0); [lia|].
  pose proof (Z.log2_nonneg (Z.abs v)). lia.
Qed.

Lemma bit_length_bound (v : Z) : 0 <= v -> v < 2 ^ bit_length v.
Proof.
  intros Hv. unfold bit_length. destruct (Z.eqb_spec v 0) as [->|Hne].
  - reflexivity.
  - rewrite Z.abs_eq by exact Hv.
    apply (Z.log2_spec v). lia.
Qed.

(** The byte length [bit_length(v) // 8 + 1] is enough for [v]. *)
Lemma byte_length_fits (v : Z) : 0 <= v -> v < 256 ^ (bit_length v / 8 + 1).
Proof.
  intros Hv. pose proof (bit_length_nonneg v) as Hb.
  pose proof (bit_length_bound v Hv) as Hlt.
  pose proof (Z.div_pos (bit_length v) 8 Hb ltac:(lia)) as Hq.
  pose proof (Z.div_mod (bit_length v) 8 ltac:(lia)) as Hdm.
  pose proof (Z.mod_pos_bound (bit_length v) 8 ltac:(lia)) as Hm.
  change 256 with (2 ^ 8). rewrite <- Z.pow_mul_r by lia.
  eapply Z.lt_le_trans; [exact Hlt|].
  apply Z.pow_le_mono_r; lia.
Qed.

Lemma bit_length_pow2 (k : Z) : 0 <= k -> bit_length (2 ^ k) = k + 1.
Proof.
  intros Hk. unfold bit_length.
  assert (Hpos : 0 < 2 ^ k) by (apply Z.pow_pos_nonneg; lia).
  destruct (Z.eqb_spec (2 ^ k) 0) as [E|_]; [lia|].
  rewrite Z.abs_eq by lia. now rewrite Z.log2_pow2.
Qed.

(** What [IntConverter.to_str] does with an integer when the registry
    resolves [str] to a [StringConverter]: a negative integer and an
    integer of [2^32] bytes or more end in [OverflowError], the first in
    [to_bytes] and the second in the four-byte length of the string
    converter; any other integer gives four characters of length and then
    its bytes. *)
Lemma IntConverter_to_str_run
    (st st1 : state) (depth : nat) (self str_converter : converter) (v : Z) :
  cclass self = IntConverter ->
  get_converter (TClass str_class) st = (Ok str_converter, st1) ->
  cclass str_converter = StringConverter ->
  let byte_length := bit_length v / 8 + 1 in
  to_str (S (S depth)) self (VInt v) st
  = (if v <? 0 then Raise OverflowError
     else if 2 ^ 32 <=? byte_length then Raise OverflowError
     else Ok (decode_latin1 (le_bytes 4 byte_length)
              ++ decode_latin1 (le_bytes (Z.to_nat byte_length) v)),
     st1).
Proof.
  intros Hself Hget Hstr byte_length.
  pose proof (bit_length_nonneg v) as Hb.
  assert (Hn : 0 <= byte_length).
  { unfold byte_length. pose proof (Z.div_pos (bit_length v) 8 Hb ltac:(lia)). lia. }
  cbn [to_str]. rewrite Hself.
  unfold Registry.bind at 1, lift at 1. cbn [int_of_value].
  unfold Registry.bind at 1. rewrite Hget.
  fold byte_length.
  unfold Registry.bind at 1, lift at 1, to_bytes.
  destruct (Z.ltb_spec byte_length 0) as [?|_]; [lia|].
  destruct (Z.ltb_spec v 0) as [Hneg|Hpos]; [reflexivity|].
  destruct (Z.leb_spec (256 ^ byte_length) v) as [Hbig|_].
  { pose proof (byte_length_fits v Hpos). unfold byte_length in Hbig. lia. }
  rewrite Hstr. unfold lift, StringConverter_to_str, to_bytes, len.
  rewrite length_decode_latin1, length_le_bytes, Z2Nat.id by exact Hn.
  change (4 <? 0) with false. change (256 ^ 4) with (2 ^ 32). cbv iota.
  destruct (Z.ltb_spec byte_length 0) as [?|_]; [lia|].
  destruct (2 ^ 32 <=? byte_length); reflexivity.
Qed.

(** C10, as the code has it: with [str] resolved to the string converter,
    [IntConverter.to_str] returns for every integer [v >= 0] whose byte
    length [bit_length(v) // 8 + 1] is below [2^32], the range of the
    four-byte length that the string converter writes, and it raises
    [OverflowError] for every negative integer. *)
Theorem IntConverter_to_str_domain
    (st st1 : state) (depth : nat) (self str_converter : converter) :
  cclass self = IntConverter ->
  get_converter (TClass str_class) st = (Ok str_converter, st1) ->
  cclass str_converter = StringConverter ->
  (forall v : Z, 0 <= v -> bit_length v / 8 + 1 < 2 ^ 32 ->
     to_str (S (S depth)) self (VInt v) st
     = (Ok (decode_latin1 (le_bytes 4 (bit_length v / 8 + 1))
            ++ decode_latin1 (le_bytes (Z.to_nat (bit_length v / 8 + 1)) v)), st1))
  /\ (forall v : Z, v < 0 ->
        to_str (S (S depth)) self (VInt v) st = (Raise OverflowError, st1)).
Proof.
  intros Hself Hget Hstr. split; intros v Hv.
  - intros Hlen. rewrite (IntConverter_to_str_run _ _ _ _ _ v Hself Hget Hstr).
    destruct (Z.ltb_spec v 0) as [?|_]; [lia|].
    destruct (Z.leb_spec (2 ^ 32) (bit_length v / 8 + 1)) as [?|_]; [lia|].
    reflexivity.
  - rewrite (IntConverter_to_str_run _ _ _ _ _ v Hself Hget Hstr).
    destruct (Z.ltb_spec v 0) as [_|?]; [reflexivity|lia].
Qed.

Lemma IntConverter_to_str_domain_witness :
  fst (to_str 2 (Converter 7 IntConverter (TClass int_class)) (VInt 300) module_state)
  = Ok [2; 0; 0; 0; 44; 1]%N
  /\ fst (to_str 2 (Converter 7 IntConverter (TClass int_class)) (VInt (-1)) module_state)
     = Raise OverflowError.
Proof.
  destruct (IntConverter_to_str_domain module_state _ 0
              (Converter 7 IntConverter (TClass int_class)) _
              eq_refl eq_refl eq_refl) as [Hnonneg Hneg].
  split.
  - rewrite (Hnonneg 300); [reflexivity|lia|reflexivity].
  - rewrite (Hneg (-1)); [reflexivity|lia].
Defined.

(** C10, against the claim as stated: [2 ^ 34359738360] is not negative,
    its byte length is [2^32], and [IntConverter.to_str] raises
    [OverflowError] on it, when the string converter writes the length of
    the [2^32] characters in four bytes. *)
Lemma IntConverter_to_str_fails_on_nonnegative :
  0 <= 2 ^ 34359738360
  /\ bit_length (2 ^ 34359738360) / 8 + 1 = 2 ^ 32
  /\ forall depth : nat,
       fst (to_str (S (S depth)) (Converter 7 IntConverter (TClass int_class))
              (VInt (2 ^ 34359738360)) module_state)
       = Raise OverflowError.
Proof.
  assert (Hk : 0 <= 34359738360) by lia.
  pose proof (Z.pow_nonneg 2 34359738360 ltac:(lia)) as Hv.
  pose proof (bit_length_pow2 34359738360 Hk) as Hbits.
  assert (Hlen : bit_length (2 ^ 34359738360) / 8 + 1 = 2 ^ 32).
  { rewrite Hbits. reflexivity. }
  clear Hbits Hk.
  split; [exact Hv|]. split; [exact Hlen|].
  revert Hv Hlen. generalize (2 ^ 34359738360). intros v Hv Hlen depth.
  rewrite (IntConverter_to_str_run module_state _ depth
             (Converter 7 IntConverter (TClass int_class)) _ v
             eq_refl eq_refl eq_refl).
  rewrite Hlen. cbn [fst].
  destruct (Z.ltb_spec v 0) as [?|_]; [lia|].
  reflexivity.
Qed.

(** [get_converter] neither reads nor writes the record of the decoding
    calls. *)
Lemma get_converter_log (type_ : hint) (ev : event) (st : state) :
  get_converter type_ (record_event ev st)
  = (fst (get_converter type_ st), record_event ev (snd (get_converter type_ st))).
Proof.
  unfold get_converter, record_event. cbn [snd lru _converters next_oid trace].
  destruct (lru_find type_ (lru st)) as [[[k v] rest]|]; [reflexivity|].
  unfold get_converter_uncached, Registry.bind, lift.
  destruct (_get_left type_) as [origin|e]; [|reflexivity].
  cbn [_converters].
  destruct (dict_get _ (_converters st)) as [[cls sub]|]; [reflexivity|].
  destruct (scan_subclass _ (_converters st)) as [[cls|]|e]; reflexivity.
Qed.

(** Decoding what [IntConverter.to_str] wrote never comes back with an empty
    remainder: when [IntConverter.from_str] returns at all, at least three
    characters of its own input are left over. *)
Lemma IntConverter_roundtrip_leaves_remainder
    (st st1 st2 : state) (depth : nat) (self str_converter : converter)
    (v : Z) (s remaining : pystr) (x : value) :
  cclass self = IntConverter ->
  get_converter (TClass str_class) st = (Ok str_converter, st1) ->
  cclass str_converter = StringConverter ->
  to_str (S (S depth)) self (VInt v) st = (Ok s, st2) ->
  fst (from_str (S (S depth)) self s st2) = Ok (remaining, x) ->
  (3 <= length remaining)%nat.
Proof.
  intros Hself Hget Hstr Henc Hdec.
  rewrite (IntConverter_to_str_run _ _ _ _ _ v Hself Hget Hstr) in Henc.
  destruct (v <? 0); [discriminate|].
  destruct (Z.leb_spec (2 ^ 32) (bit_length v / 8 + 1)) as [|Hlen]; [discriminate|].
  apply pair_equal_spec in Henc as [Es ->].
  assert (Es' : decode_latin1 (le_bytes 4 (bit_length v / 8 + 1))
                ++ decode_latin1 (le_bytes (Z.to_nat (bit_length v / 8 + 1)) v) = s)
    by congruence.
  clear Es. rename Es' into Es.
  pose proof (bit_length_nonneg v) as Hb.
  pose proof (Z.div_pos (bit_length v) 8 Hb ltac:(lia)) as Hq.
  set (n := bit_length v / 8 + 1) in *.
  set (payload := decode_latin1 (le_bytes (Z.to_nat n) v)) in *.
  assert (Hs : StringConverter_to_str payload
               = Ok (decode_latin1 (le_bytes 4 n) ++ payload)).
  { unfold StringConverter_to_str, to_bytes, len, payload.
    rewrite length_decode_latin1, length_le_bytes, Z2Nat.id by lia.
    change (4 <? 0) with false. change (256 ^ 4) with (2 ^ 32). cbv iota.
    destruct (Z.ltb_spec n 0); [lia|].
    destruct (Z.leb_spec (2 ^ 32) n); [lia|]. reflexivity. }
  destruct (get_converter_equal_key_cached _ _ _ _ _ Hget (hint_eqb_refl _))
    as (st3 & Hget' & _).
  rewrite Es in Hs. clear Es. revert Hdec. cbn [from_str]. rewrite Hself.
  unfold Registry.bind at 1. cbn [log fst snd].
  unfold Registry.bind at 1.
  rewrite get_converter_log, Hget'. cbn [fst snd].
  unfold Registry.bind at 1. rewrite Hstr.
  unfold Registry.bind at 1. cbn [log fst snd].
  unfold Registry.bind at 1, lift at 1.
  destruct (StringConverter_from_str s) as [[remaining' string]|e] eqn:Hd;
    [|discriminate].
  pose proof (StringConverter_from_str_remainder payload [] s remaining' string Hs)
    as Hrem.
  rewrite app_nil_r in Hrem. specialize (Hrem Hd). cbn [length] in Hrem.
  unfold ret at 1.
  destruct (ctype self) as [cls| | |]; try discriminate.
  destruct (class_issubclass cls int_class); [|discriminate].
  unfold Registry.bind, lift, ret.
  destruct (encode_latin1 string); [|discriminate].
  destruct (construct cls _); [|discriminate].
  cbn [fst]. intros [= <- _]. lia.
Qed.

(** C2 (the code departs from the claim): in the state the module is
    imported in, [IntConverter.to_str(300)] gives the length characters
    [2 0 0 0] and the two bytes [44 1] of 300, and [IntConverter.from_str]
    on these six characters returns the integer 0 and leaves the three
    characters [0 44 1]: the string converter it calls takes the two zeros
    after the first length character for the bytes of the integer. *)
Theorem IntConverter_roundtrip_300 (depth : nat) :
  fst ((let* c := get_converter (TClass int_class) in
        to_str (S (S depth)) c (VInt 300)) module_state)
  = Ok [2; 0; 0; 0; 44; 1]%N
  /\ fst ((let* c := get_converter (TClass int_class) in
           let* s := to_str (S (S depth)) c (VInt 300) in
           from_str (S (S depth)) c s) module_state)
     = Ok ([0; 44; 1]%N, VInt 0).
Proof. split; reflexivity. Qed.

(** ** [serialize] *)

Lemma gather_iter_field_fragments
    (depth : nat) (kwargs : gmap pystr value) (types : list (pystr * hint))
    (st st' : state) (fragments : list pystr) :
  field_fragments depth kwargs types st fragments st' ->
  gather_iter (map (fun '(k, v) => serialize_one depth kwargs k v) types) st
  = (Ok fragments, st').
Proof.
  induction 1 as [st|k v types st st1 st2 st3 c f fs Hget Hto _ IH].
  - reflexivity.
  - cbn [map gather_iter]. unfold Registry.bind at 1.
    unfold serialize_one at 1, Registry.bind at 1. rewrite Hget, Hto.
    unfold Registry.bind at 1. rewrite IH. reflexivity.
Qed.

(** Whatever [serialize] gathers is the list of the fragments of the
    fields. *)
Lemma field_fragments_gather_iter
    (depth : nat) (kwargs : gmap pystr value) (types : list (pystr * hint))
    (st st' : state) (fragments : list pystr) :
  gather_iter (map (fun '(k, v) => serialize_one depth kwargs k v) types) st
  = (Ok fragments, st') ->
  field_fragments depth kwargs types st fragments st'.
Proof.
  revert st st' fragments.
  induction types as [|[k v] types IH]; intros st st' fragments.
  - intros [= <- <-]. constructor.
  - cbn [map gather_iter]. unfold Registry.bind at 1.
    unfold serialize_one at 1, Registry.bind at 1.
    destruct (get_converter v st) as [[c|e] st1] eqn:Hget; [|discriminate].
    destruct (to_str depth c _ st1) as [[f|e] st2] eqn:Hto; [|discriminate].
    unfold Registry.bind at 1.
    destruct (gather_iter _ st2) as [[fs|e] st3] eqn:Hrest; [|discriminate].
    intros [= <- <-]. econstructor; eauto.
Qed.

(** C7: when the fields of the schema encode to [fragments], [serialize]
    returns their concatenation, in the order of the schema, if it is at
    most 100 characters long; if it is longer, [serialize] raises
    [SerializerError] with a message that names the cookie and gives the
    length it got and the length it allows, and returns no string. *)
Theorem serialize_size_enforcement
    (depth : nat) (cookie : pystr) (types : list (pystr * hint))
    (kwargs : gmap pystr value) (st st' : state) (fragments : list pystr) :
  field_fragments depth kwargs types st fragments st' ->
  let out := concat fragments in
  (len out <= 100 -> serialize depth cookie types kwargs st = (Ok out, st'))
  /\ (100 < len out ->
        serialize depth cookie types kwargs st
        = (Raise (SerializerError
                    (lit "The serialized custom_id for component " ++ cookie
                     ++ lit " may be too long."
                     ++ lit " Try reducing the number of parameters the component takes."
                     ++ lit " Got length: " ++ str_of_int (len out)
                     ++ lit " Expected length: 100 or less")), st')).
Proof.
  intros Hfrag out. apply gather_iter_field_fragments in Hfrag.
  unfold serialize, Registry.bind. rewrite Hfrag. fold out.
  split; intros Hlen.
  - destruct (Z.ltb_spec 100 (len out)) as [?|_]; [lia|]. reflexivity.
  - destruct (Z.ltb_spec 100 (len out)) as [_|?]; [|lia]. reflexivity.
Qed.

Lemma run_Ok {A} (m : M A) (st : state) (a : A) :
  fst (m st) = Ok a -> m st = (Ok a, snd (m st)).
Proof. destruct (m st) as [r st']. cbn [fst snd]. now intros ->. Qed.

Lemma serialize_size_enforcement_witness :
  fst (serialize 2 (lit "c")
         [(lit "a", TClass int_class); (lit "b", TClass bool_class)]
         {[ lit "a" := VInt 5; lit "b" := VBool true ]} module_state)
  = Ok [1; 0; 0; 0; 5; 116]%N
  /\ fst (serialize 2 (lit "c") [(lit "s", TClass str_class)]
            {[ lit "s" := VStr (replicate 100 97%N) ]} module_state)
     = Raise (SerializerError
                (lit "The serialized custom_id for component c may be too long. Try reducing the number of parameters the component takes. Got length: 104 Expected length: 100 or less")).
Proof.
  split.
  - rewrite (proj1 (serialize_size_enforcement 2 (lit "c")
                      [(lit "a", TClass int_class); (lit "b", TClass bool_class)]
                      {[ lit "a" := VInt 5; lit "b" := VBool true ]}
                      module_state _ [[1; 0; 0; 0; 5]%N; [116]%N]
                      ltac:(apply field_fragments_gather_iter, run_Ok;
                            vm_compute; reflexivity))
               ltac:(vm_compute; discriminate)).
    reflexivity.
  - rewrite (proj2 (serialize_size_enforcement 2 (lit "c")
                      [(lit "s", TClass str_class)]
                      {[ lit "s" := VStr (replicate 100 97%N) ]}
                      module_state _ [[100; 0; 0; 0]%N ++ replicate 100 97%N]
                      ltac:(apply field_fragments_gather_iter, run_Ok;
                            vm_compute; reflexivity))
               ltac:(vm_compute; reflexivity)).
    vm_compute. reflexivity.
Defined.

(** ** [deserialize] *)

Lemma get_converter_trace (type_ : hint) (st : state) :
  trace (snd (get_converter type_ st)) = trace st.
Proof.
  unfold get_converter.
  destruct (lru_find type_ (lru st)) as [[[k v] rest]|]; [reflexivity|].
  unfold get_converter_uncached, Registry.bind, lift.
  destruct (_get_left type_) as [origin|e]; [|reflexivity].
  destruct (dict_get _ (_converters st)) as [[cls sub]|]; [reflexivity|].
  destruct (scan_subclass _ (_converters st)) as [[cls|]|e]; reflexivity.
Qed.

(** C8: [deserialize] resolves the converter of [str] and has it decode the
    cookie from the front of the identifier; when the cookie it decodes is
    no key of the component map, [deserialize] raises [SerializerError]
    with a message that names the cookie.  The state it leaves is the one
    after that single resolution, and the only decoding call on record is
    the one of the string converter on the whole identifier: no converter
    of a field was resolved or called. *)
Theorem deserialize_unknown_cookie
    (depth : nat) (custom_id remaining cookie : pystr)
    (component_map : gmap pystr component)
    (st st1 : state) (str_converter : converter) :
  get_converter (TClass str_class) st = (Ok str_converter, st1) ->
  cclass str_converter = StringConverter ->
  StringConverter_from_str custom_id = Ok (remaining, cookie) ->
  component_map !! cookie = None ->
  deserialize (S depth) custom_id component_map st
  = (Raise (SerializerError
              (lit "Component with cookie " ++ cookie ++ lit " does not exist.")),
     record_event (EvFromStr str_converter custom_id) st1)
  /\ trace (record_event (EvFromStr str_converter custom_id) st1)
     = trace st ++ [EvFromStr str_converter custom_id].
Proof.
  intros Hget Hstr Hdec Hmap. split.
  - unfold deserialize. unfold Registry.bind at 1. rewrite Hget.
    unfold Registry.bind at 1. cbn [from_str].
    unfold Registry.bind at 1. cbn [log]. rewrite Hstr.
    unfold Registry.bind at 1, lift at 1. rewrite Hdec.
    unfold ret at 1. rewrite Hmap. reflexivity.
  - pose proof (get_converter_trace (TClass str_class) st) as Ht.
    rewrite Hget in Ht. cbn [snd] in Ht.
    unfold record_event. cbn [trace]. now rewrite Ht.
Qed.

Lemma deserialize_unknown_cookie_witness :
  fst (deserialize 1 ([1; 99; 0; 0; 5; 116]%N)
         {[ lit "d" := Component "D" [(lit "b", TClass bool_class)] ]} module_state)
  = Raise (SerializerError (lit "Component with cookie c does not exist.")).
Proof.
  assert (Hmap : ({[ lit "d" := Component "D" [(lit "b", TClass bool_class)] ]}
                    : gmap pystr component) !! lit "c" = None)
    by (vm_compute; reflexivity).
  destruct (deserialize_unknown_cookie 0 [1; 99; 0; 0; 5; 116]%N
              [0; 0; 5; 116]%N (lit "c") _ module_state _ _
              eq_refl eq_refl eq_refl Hmap) as [Hrun _].
  rewrite Hrun. reflexivity.
Defined.

(** * Further properties of the registry and of the codec *)

(** ** Equality of hints is an equivalence *)

Lemma hint_eqb_sym_true (a b : hint) : hint_eqb a b = true -> hint_eqb b a = true.
Proof.
  revert b.
  induction a as [ca|na|fa xs IH|oa xs IHo IH] using hint_nested_ind;
    intros [cb|nb|fb ys|ob ys]; cbn [hint_eqb]; try discriminate.
  - intros H. apply bool_decide_eq_true in H. apply bool_decide_eq_true. congruence.
  - intros H. apply String.eqb_eq in H. apply String.eqb_eq. congruence.
  - rewrite Forall_forall in IH.
    intros [Ha Hb]%andb_prop. rewrite forallb_forall in Ha, Hb.
    apply andb_true_intro; split; apply forallb_forall.
    + intros y Hy.
      destruct (proj1 (existsb_exists _ _) (Hb y Hy)) as (x & Hx & Hxy).
      apply existsb_exists. exists x. split; [exact Hx|].
      apply (IH x (proj2 (list_elem_of_In _ _) Hx) y Hxy).
    + intros x Hx.
      destruct (proj1 (existsb_exists _ _) (Ha x Hx)) as (y & Hy & Hxy).
      apply existsb_exists. exists y. split; [exact Hy|].
      apply (IH x (proj2 (list_elem_of_In _ _) Hx) y Hxy).
  - intros [Ho Hargs]%andb_prop. rewrite (IHo ob Ho). cbn [andb].
    clear IHo Ho. revert ys Hargs.
    induction IH as [|x xs Hx _ IHxs]; intros [|y ys]; try discriminate;
      [reflexivity|].
    intros [Hxy Hrest]%andb_prop. rewrite (Hx y Hxy). cbn [andb].
    exact (IHxs ys Hrest).
Qed.

Lemma hint_eqb_sym (a b : hint) : hint_eqb a b = hint_eqb b a.
Proof.
  destruct (hint_eqb a b) eqn:E1, (hint_eqb b a) eqn:E2; try reflexivity.
  - apply hint_eqb_sym_true in E1. congruence.
  - apply hint_eqb_sym_true in E2. congruence.
Qed.

(** A class or a special form equals only itself. *)
Lemma hint_eqb_atom (k h : hint) :
  get_origin h = None -> hint_eqb k h = true -> k = h.
Proof.
  destruct h as [c|n|f args|o args]; cbn [get_origin];
    [| |destruct f; discriminate|discriminate]; intros _.
  - destruct k; cbn [hint_eqb]; try discriminate.
    intros H. apply bool_decide_eq_true in H. congruence.
  - destruct k; cbn [hint_eqb]; try discriminate.
    intros H. apply String.eqb_eq in H. congruence.
Qed.

(** ** The dictionary [_converters] *)

Lemma dict_get_set_eq {V} (k : hint) (v : V) (d : list (hint * V)) :
  dict_get k (dict_set k v d) = Some v.
Proof.
  induction d as [|[k' v'] d IH]; cbn [dict_set dict_get].
  - now rewrite hint_eqb_refl.
  - destruct (hint_eqb k' k) eqn:E; cbn [dict_get]; rewrite E; [reflexivity|exact IH].
Qed.

Lemma dict_get_set_ne {V} (k k' : hint) (v : V) (d : list (hint * V)) :
  hint_eqb k k' = false -> dict_get k' (dict_set k v d) = dict_get k' d.
Proof.
  intros Hne. induction d as [|[k0 v0] d IH]; cbn [dict_set dict_get].
  - now rewrite Hne.
  - destruct (hint_eqb k0 k) eqn:E; cbn [dict_get].
    + destruct (hint_eqb k0 k') eqn:E'; [|reflexivity].
      rewrite hint_eqb_sym in E.
      rewrite (hint_eqb_trans _ _ _ E E') in Hne. discriminate.
    + now rewrite IH.
Qed.

Lemma dict_set_keys {V} (k : hint) (v : V) (d : list (hint * V)) :
  map fst (dict_set k v d)
  = match dict_get k d with
    | Some _ => map fst d
    | None => map fst d ++ [k]
    end.
Proof.
  induction d as [|[k' v'] d IH]; cbn [dict_set dict_get map app fst]; [reflexivity|].
  destruct (hint_eqb k' k); cbn [map fst]; [reflexivity|].
  rewrite IH. destruct (dict_get k d); reflexivity.
Qed.

(** The body of [get_converter] is [resolve] on the registry, followed by
    the construction of the object. *)
Lemma get_converter_uncached_resolve (type_ : hint) (st : state) :
  get_converter_uncached type_ st
  = match resolve (_converters st) type_ with
    | Ok (converter, origin) => new_converter converter origin st
    | Raise e => (Raise e, st)
    end.
Proof.
  unfold get_converter_uncached, resolve, reduce, Registry.bind, lift.
  destruct (_get_left type_) as [origin|e]; cbn [rbind]; [|reflexivity].
  destruct (dict_get _ (_converters st)) as [[cls sub]|]; [reflexivity|].
  destruct (scan_subclass _ (_converters st)) as [[cls|]|e]; reflexivity.
Qed.

(** ** Registration *)

(** A registration takes effect at once: whatever the state was, and
    whatever was cached or had failed before, [get_converter(t)] right after
    [add_converter(t, converter)] makes a new [converter] bound to [t], for
    every [t] that is a class or a special form. *)
Theorem add_converter_then_get_converter
    (t : hint) (converter : conv_class) (supports_subclass : bool) (st : state) :
  get_origin t = None ->
  get_converter t (snd (add_converter t converter supports_subclass st))
  = (Ok (Converter (next_oid st) converter t),
     State (dict_set t (converter, supports_subclass) (_converters st))
           [(t, Converter (next_oid st) converter t)]
           (S (next_oid st)) (trace st)).
Proof.
  intros Ho. unfold add_converter, get_converter. cbn [snd lru lru_find].
  unfold get_converter_uncached, Registry.bind, lift, _get_left, _is_union.
  rewrite Ho. cbn [negb _converters rbind]. rewrite ?Ho.
  rewrite dict_get_set_eq. reflexivity.
Qed.

Lemma add_converter_then_get_converter_witness :
  fst (get_converter typing_Literal
         (snd (add_converter typing_Literal BoolConverter false module_state)))
  = Ok (Converter 0 BoolConverter typing_Literal).
Proof.
  rewrite (add_converter_then_get_converter typing_Literal BoolConverter false
             module_state eq_refl).
  reflexivity.
Defined.

(** A registration leaves the registration of every key that does not equal
    the registered one as it was, and empties the cache. *)
Theorem add_converter_other_keys
    (t k : hint) (converter : conv_class) (supports_subclass : bool) (st : state) :
  hint_eqb t k = false ->
  let st' := snd (add_converter t converter supports_subclass st) in
  dict_get k (_converters st') = dict_get k (_converters st)
  /\ lru st' = [].
Proof.
  intros Hne. split; [|reflexivity].
  unfold add_converter. cbn [snd _converters]. now apply dict_get_set_ne.
Qed.

Lemma add_converter_other_keys_witness :
  dict_get (TClass int_class)
    (_converters (snd (add_converter (TClass str_class) BoolConverter false module_state)))
  = Some (IntConverter, true).
Proof.
  rewrite (proj1 (add_converter_other_keys (TClass str_class) (TClass int_class)
                    BoolConverter false module_state eq_refl)).
  reflexivity.
Defined.

(** The order of the keys, which is the order of the subclass scan: a key
    that is registered again keeps its place, a new key goes last. *)
Theorem add_converter_key_order
    (t : hint) (converter : conv_class) (supports_subclass : bool) (st : state) :
  map fst (_converters (snd (add_converter t converter supports_subclass st)))
  = match dict_get t (_converters st) with
    | Some _ => map fst (_converters st)
    | None => map fst (_converters st) ++ [t]
    end.
Proof. unfold add_converter. cbn [snd _converters]. apply dict_set_keys. Qed.

(** ** The cache *)

(** A call of [get_converter] that raises changes nothing: no object is
    made and nothing is cached. *)
Theorem get_converter_raise_state (type_ : hint) (st st' : state) (e : exc) :
  get_converter type_ st = (Raise e, st') -> st' = st.
Proof.
  unfold get_converter.
  destruct (lru_find type_ (lru st)) as [[[k v] rest]|]; [discriminate|].
  rewrite get_converter_uncached_resolve.
  destruct (resolve (_converters st) type_) as [[cls origin]|e'].
  - unfold new_converter. discriminate.
  - now intros [= _ <-].
Qed.

Lemma get_converter_raise_state_witness :
  snd (get_converter (TClass A_class) module_state) = module_state.
Proof.
  exact (get_converter_raise_state (TClass A_class) module_state _
           (ConverterError (lit "Could not find converter for type `A`."))
           eq_refl).
Defined.

Lemma lru_find_perm (k : hint) (c rest : list (hint * converter)) (e : hint * converter) :
  lru_find k c = Some (e, rest) -> c ≡ₚ e :: rest.
Proof.
  revert rest. induction c as [|[k' v'] c IH]; intros rest; cbn [lru_find];
    [discriminate|].
  destruct (hint_eqb k' k).
  - now intros [= <- <-].
  - destruct (lru_find k c) as [[e' r]|]; [|discriminate].
    intros [= -> <-]. rewrite (IH r eq_refl). apply Permutation_swap.
Qed.

(** [get_converter] keeps the registry and the record of decoding calls,
    and never takes an object identity back. *)
Lemma get_converter_frame (type_ : hint) (st : state) :
  let st' := snd (get_converter type_ st) in
  _converters st' = _converters st
  /\ trace st' = trace st
  /\ (next_oid st <= next_oid st')%nat.
Proof.
  unfold get_converter.
  destruct (lru_find type_ (lru st)) as [[[k v] rest]|]; [cbn; auto|].
  rewrite get_converter_uncached_resolve.
  destruct (resolve (_converters st) type_) as [[cls origin]|e]; cbn; auto.
Qed.

Lemma step_cache_ok (st st' : state) : step st st' -> cache_ok st -> cache_ok st'.
Proof.
  intros Hstep [Hb Ho Hd Hc]. destruct Hstep as [t cls sub st|type_ st|ev st].
  - unfold add_converter. cbn [snd]. split; cbn [lru next_oid _converters].
    + cbn. lia.
    + intros k v Hin. inversion Hin.
    + constructor.
    + intros k v Hin. inversion Hin.
  - unfold get_converter.
    destruct (lru_find type_ (lru st)) as [[[k v] rest]|] eqn:F.
    + apply lru_find_perm in F. cbn [snd].
      split; cbn [lru next_oid _converters].
      * now rewrite <- F.
      * intros k' v' Hin. rewrite <- F in Hin. eauto.
      * now rewrite <- F.
      * intros k' v' Hin. rewrite <- F in Hin. eauto.
    + rewrite get_converter_uncached_resolve.
      destruct (resolve (_converters st) type_) as [[cls origin]|e] eqn:R;
        cbn [new_converter snd]; [|now split].
      assert (Hsub : forall x, x ∈ take (lru_maxsize - 1) (lru st) -> x ∈ lru st).
      { intros x Hx. exact (elem_of_sublist _ _ _ Hx (sublist_take _ _)). }
      split; cbn [lru next_oid _converters].
      * cbn [length]. rewrite length_take. unfold lru_maxsize. lia.
      * intros k v [[= -> ->]|Hin]%elem_of_cons; cbn [oid]; [lia|].
        specialize (Ho k v (Hsub _ Hin)). lia.
      * cbn [map snd oid]. apply NoDup_cons. split.
        -- intros Hin. apply list_elem_of_fmap in Hin as ([k v] & Heq & Hin).
           cbn [snd] in Heq. specialize (Ho k v (Hsub _ Hin)). lia.
        -- eapply sublist_NoDup; [exact Hd|].
           apply fmap_sublist, sublist_take.
      * intros k v [[= -> ->]|Hin]%elem_of_cons; cbn [cclass ctype]; [exact R|].
        exact (Hc k v (Hsub _ Hin)).
  - unfold record_event. split; cbn [lru next_oid _converters]; assumption.
Qed.

Lemma reachable_invariant (st : state) : reachable st -> cache_ok st.
Proof.
  induction 1 as [|st st' _ IH Hstep].
  - split; cbn.
    + lia.
    + intros k v Hin. inversion Hin.
    + constructor.
    + intros k v Hin. inversion Hin.
  - exact (step_cache_ok _ _ Hstep IH).
Qed.

(** In every state the module can reach, the cache holds at most 128
    entries, never the same object twice, and every entry holds a converter
    of the class, bound to the type, that the registry of that state gives
    for the key of the entry: a registration leaves no stale entry
    behind. *)
Theorem reachable_cache_ok (st : state) :
  reachable st ->
  (length (lru st) <= 128)%nat
  /\ NoDup (map (fun e => oid (snd e)) (lru st))
  /\ (forall k v, (k, v) ∈ lru st ->
        (oid v < next_oid st)%nat
        /\ resolve (_converters st) k = Ok (cclass v, ctype v)).
Proof.
  intros [Hb Ho Hd Hc]%reachable_invariant. split; [exact Hb|].
  split; [exact Hd|]. intros k v Hin. split; eauto.
Qed.

Lemma reachable_module_state : reachable module_state.
Proof.
  change module_state with
    (snd (add_converter (TClass bool_class) BoolConverter false
    (snd (add_converter (TClass Enum_class) EnumConverter true
    (snd (add_converter typing_Literal StringConverter false
    (snd (add_converter (TClass str_class) StringConverter true
    (snd (add_converter (TClass int_class) IntConverter true
    (snd (add_converter (TClass float_class) FloatConverter true
            empty_state)))))))))))).
  repeat (eapply reachable_step; [|apply step_add]).
  constructor.
Qed.

Lemma reachable_warm_state :
  reachable (snd (get_converter (TUnion PipeUnion [TClass str_class; TClass int_class])
                    (snd (get_converter (TClass int_class) module_state)))).
Proof.
  eapply reachable_step; [|apply step_get].
  eapply reachable_step; [|apply step_get].
  exact reachable_module_state.
Qed.

Lemma reachable_cache_ok_witness :
  let st := snd (get_converter (TUnion PipeUnion [TClass str_class; TClass int_class])
                   (snd (get_converter (TClass int_class) module_state))) in
  (length (lru st) <= 128)%nat
  /\ NoDup (map (fun e => oid (snd e)) (lru st))
  /\ (forall k v, (k, v) ∈ lru st ->
        (oid v < next_oid st)%nat
        /\ resolve (_converters st) k = Ok (cclass v, ctype v)).
Proof. exact (reachable_cache_ok _ reachable_warm_state). Defined.

Lemma lru_find_elem_of (k : hint) (c rest : list (hint * converter)) (e : hint * converter) :
  lru_find k c = Some (e, rest) -> e ∈ c.
Proof.
  intros F. rewrite (lru_find_perm _ _ _ _ F). apply list_elem_of_here.
Qed.

(** With a sound cache, [get_converter] on a class or a special form gives
    what the registry resolves. *)
Lemma get_converter_atom_resolve (h : hint) (st : state) :
  cache_ok st ->
  get_origin h = None ->
  match resolve (_converters st) h with
  | Ok (cls, t) =>
      exists v, fst (get_converter h st) = Ok v /\ cclass v = cls /\ ctype v = t
  | Raise e => get_converter h st = (Raise e, st)
  end.
Proof.
  intros [_ _ _ Hc] Ho. unfold get_converter.
  destruct (lru_find h (lru st)) as [[[k v] rest]|] eqn:F.
  - pose proof (lru_find_Some _ _ _ _ _ F) as Hk.
    apply (hint_eqb_atom _ _ Ho) in Hk. subst k.
    apply lru_find_elem_of in F. rewrite (Hc _ _ F).
    exists v. cbn [fst]. auto.
  - rewrite get_converter_uncached_resolve.
    destruct (resolve (_converters st) h) as [[cls t]|e]; [|reflexivity].
    eexists. cbn [new_converter fst]. split; [reflexivity|]. split; reflexivity.
Qed.

(** What the cache never does for a class or a special form: in every
    reachable state, [get_converter] on such a hint returns a converter of
    the class and bound to the type that the registry resolves the hint to,
    and raises what the resolution raises, without a change of state;
    whatever was cached before makes no difference. *)
Theorem reachable_get_converter_agrees_with_registry (h : hint) (st : state) :
  reachable st ->
  get_origin h = None ->
  match resolve (_converters st) h with
  | Ok (cls, t) =>
      exists v, fst (get_converter h st) = Ok v /\ cclass v = cls /\ ctype v = t
  | Raise e => get_converter h st = (Raise e, st)
  end.
Proof.
  intros Hr Ho. apply get_converter_atom_resolve; [|exact Ho].
  now apply reachable_invariant.
Qed.

Lemma reachable_get_converter_agrees_with_registry_witness :
  exists v,
    fst (get_converter (TClass str_class)
           (snd (get_converter (TUnion PipeUnion [TClass str_class; TClass int_class])
                   (snd (get_converter (TClass int_class) module_state)))))
    = Ok v
    /\ cclass v = StringConverter /\ ctype v = TClass str_class.
Proof.
  exact (reachable_get_converter_agrees_with_registry (TClass str_class) _
           reachable_warm_state eq_refl).
Defined.

(** ** Dispatch under the registrations of the module *)

Lemma resolve_builtin (c : pyclass) :
  resolve (_converters module_state) (TClass c)
  = match builtin_dispatch c with
    | Some cls => Ok (cls, TClass c)
    | None => Raise (ConverterError (not_found_message (TClass c)))
    end.
Proof.
  unfold resolve, reduce, builtin_dispatch.
  cbn [_get_left _is_union get_origin negb rbind].
  change (_converters module_state) with
    [(TClass float_class, (FloatConverter, true));
     (TClass int_class, (IntConverter, true));
     (TClass str_class, (StringConverter, true));
     (typing_Literal, (StringConverter, false));
     (TClass Enum_class, (EnumConverter, true));
     (TClass bool_class, (BoolConverter, false))].
  cbn [dict_get scan_subclass hint_eqb typing_Literal _any_issubclass issubclass rbind].
  repeat case_bool_decide; subst; try reflexivity; try discriminate;
    try congruence;
    repeat (destruct (class_issubclass c _); try reflexivity).
Qed.

(** Under the six registrations of the module, in every reachable state:
    [get_converter] on [bool] gives a [BoolConverter]; on any other class it
    gives the converter of the first of [float], [int], [str] and [Enum],
    in that order, that the class is a subclass of, so a class that is both
    an [int] and an [Enum] gets the [IntConverter]; the converter is bound
    to the class asked for, not to the registered base; a class that is none
    of these raises [ConverterError] with its name. *)
Theorem builtin_get_converter (c : pyclass) (st : state) :
  reachable st ->
  _converters st = _converters module_state ->
  match builtin_dispatch c with
  | Some cls =>
      exists v, fst (get_converter (TClass c) st) = Ok v
                /\ cclass v = cls /\ ctype v = TClass c
  | None =>
      get_converter (TClass c) st
      = (Raise (ConverterError
                  (lit "Could not find converter for type `" ++ lit (cname c)
                   ++ lit "`.")), st)
  end.
Proof.
  intros Hr Hregs.
  pose proof (get_converter_atom_resolve (TClass c) st
                (reachable_invariant _ Hr) eq_refl) as H.
  rewrite Hregs, resolve_builtin in H.
  destruct (builtin_dispatch c); exact H.
Qed.

Lemma builtin_get_converter_witness :
  let IntEnum := PyClass "Color" ["Color"; "int"; "Enum"; "object"]%string [1; 2] in
  exists v,
    fst (get_converter (TClass IntEnum)
           (snd (get_converter (TClass int_class) module_state))) = Ok v
    /\ cclass v = IntConverter /\ ctype v = TClass IntEnum.
Proof.
  intros IntEnum.
  refine (builtin_get_converter IntEnum
            (snd (get_converter (TClass int_class) module_state)) _ eq_refl).
  eapply reachable_step; [|apply step_get]. exact reachable_module_state.
Defined.



(** ** What the encoders write *)

Lemma from_bytes_le_bytes (n : nat) (v : Z) :
  0 <= v < 256 ^ Z.of_nat n -> from_bytes (le_bytes n v) = v.
Proof.
  revert v. induction n as [|n IH]; intros v Hv.
  - cbn in *. lia.
  - cbn [le_bytes from_bytes].
    assert (Hm : 0 <= v mod 256 < 256) by (apply Z.mod_pos_bound; lia).
    rewrite byte_of_Z_to_N, Z2N.id by lia.
    rewrite IH.
    + pose proof (Z.div_mod v 256 ltac:(lia)). lia.
    + rewrite Nat2Z.inj_succ, Z.pow_succ_r in Hv by lia.
      split; [apply Z.div_pos; lia|apply Z.div_lt_upper_bound; lia].
Qed.

Lemma decode_latin1_inj (b1 b2 : list byte) :
  decode_latin1 b1 = decode_latin1 b2 -> b1 = b2.
Proof.
  intros H. pose proof (encode_decode_latin1 b1) as H1.
  rewrite H, encode_decode_latin1 in H1. congruence.
Qed.

Lemma decode_latin1_bounded (b : list byte) :
  Forall (fun c => (c < 256)%N) (decode_latin1 b).
Proof.
  unfold decode_latin1. induction b as [|x b IH]; constructor; [|exact IH].
  pose proof (Byte.to_N_bounded x). lia.
Qed.

Lemma le_bytes_inj (n : nat) (v1 v2 : Z) :
  0 <= v1 < 256 ^ Z.of_nat n -> 0 <= v2 < 256 ^ Z.of_nat n ->
  le_bytes n v1 = le_bytes n v2 -> v1 = v2.
Proof.
  intros H1 H2 E. rewrite <- (from_bytes_le_bytes n v1 H1), E.
  now apply from_bytes_le_bytes.
Qed.

Lemma StringConverter_to_str_inv (obj e : pystr) :
  StringConverter_to_str obj = Ok e ->
  len obj < 2 ^ 32 /\ e = decode_latin1 (le_bytes 4 (len obj)) ++ obj.
Proof.
  intros H. split; [|now apply StringConverter_to_str_Ok].
  revert H. unfold StringConverter_to_str, to_bytes.
  change (4 <? 0) with false. cbv iota.
  destruct (len obj <? 0); [discriminate|].
  change (256 ^ 4) with (2 ^ 32).
  destruct (Z.leb_spec (2 ^ 32) (len obj)); [discriminate|]. intros _. assumption.
Qed.

(** What [StringConverter.to_str] writes can be taken apart again in one
    way only: if one encoded string followed by [x] is another encoded
    string followed by [y], the two strings are the same and so are [x]
    and [y].  The four length characters do delimit the field. *)
Theorem StringConverter_to_str_prefix_code (s1 s2 e1 e2 x y : pystr) :
  StringConverter_to_str s1 = Ok e1 ->
  StringConverter_to_str s2 = Ok e2 ->
  e1 ++ x = e2 ++ y ->
  s1 = s2 /\ x = y.
Proof.
  intros [Hl1 ->]%StringConverter_to_str_inv [Hl2 ->]%StringConverter_to_str_inv E.
  rewrite <- !app_assoc in E.
  apply app_inj_1 in E as [Ep E];
    [|now rewrite !length_decode_latin1, !length_le_bytes].
  apply decode_latin1_inj, le_bytes_inj in Ep;
    [|change (256 ^ Z.of_nat 4) with (2 ^ 32); unfold len in *; lia..].
  apply app_inj_1 in E; [exact E|]. unfold len in Ep. lia.
Qed.

Lemma StringConverter_to_str_prefix_code_witness :
  lit "hi" = lit "hi" /\ lit "z" = lit "z".
Proof.
  exact (StringConverter_to_str_prefix_code (lit "hi") (lit "hi") _ _
           (lit "z") (lit "z") eq_refl eq_refl eq_refl).
Defined.

(** [StringConverter.from_str] splits what it is given: the first
    character, which is below 256, then the string, then the remainder.
    The string is never longer than the first character says, and when it
    is shorter the input was cut short and the remainder is empty: a
    truncated field raises nothing. *)
Theorem StringConverter_from_str_split (obj remaining string : pystr) :
  StringConverter_from_str obj = Ok (remaining, string) ->
  exists c : N,
    obj = c :: string ++ remaining
    /\ (c < 256)%N
    /\ (length string <= N.to_nat c)%nat
    /\ ((length string < N.to_nat c)%nat -> remaining = []).
Proof.
  destruct obj as [|c rest]; [discriminate|].
  unfold StringConverter_from_str. cbn [index0 rbind encode_latin1].
  destruct (Byte.of_N c) as [b|] eqn:Hb; [|discriminate].
  cbn [rbind from_bytes]. apply Byte.to_of_N in Hb.
  rewrite Hb, Z.mul_0_r, Z.add_0_r.
  replace (Z.to_nat (Z.of_N c)) with (N.to_nat c) by lia.
  unfold slice, slice_from.
  replace (N.to_nat c + 1 - 1)%nat with (N.to_nat c) by lia.
  replace (N.to_nat c + 1)%nat with (S (N.to_nat c)) by lia.
  cbn [drop]. rewrite drop_0. intros [= <- <-]. exists c.
  split; [now rewrite take_drop|].
  split; [pose proof (Byte.to_N_bounded b); lia|].
  rewrite length_take. split; [lia|].
  intros Hshort. apply drop_ge. lia.
Qed.

Lemma StringConverter_from_str_split_witness :
  exists c : N,
    [5; 104; 105]%N = c :: lit "hi" ++ []
    /\ (c < 256)%N
    /\ (length (lit "hi") <= N.to_nat c)%nat
    /\ ((length (lit "hi") < N.to_nat c)%nat -> @nil N = []).
Proof.
  exact (StringConverter_from_str_split [5; 104; 105]%N [] (lit "hi") eq_refl).
Defined.

(** [StringConverter.from_str] raises only on the empty string
    ([IndexError]) and on a first character above 255
    ([UnicodeEncodeError]). *)
Theorem StringConverter_from_str_errors (obj : pystr) (e : exc) :
  StringConverter_from_str obj = Raise e ->
  (obj = [] /\ e = IndexError)
  \/ (exists c rest, obj = c :: rest /\ (256 <= c)%N /\ e = UnicodeEncodeError).
Proof.
  destruct obj as [|c rest]; [intros [= <-]; now left|].
  unfold StringConverter_from_str. cbn [index0 rbind encode_latin1].
  destruct (Byte.of_N c) as [b|] eqn:Hb; [discriminate|].
  cbn [rbind]. intros [= <-]. right. exists c, rest.
  apply Byte.of_N_None_iff in Hb. split; [reflexivity|]. split; [lia|reflexivity].
Qed.

Lemma StringConverter_from_str_errors_witness :
  (@nil N = [] /\ IndexError = IndexError)
  \/ (exists c rest, @nil N = c :: rest /\ (256 <= c)%N
                     /\ IndexError = UnicodeEncodeError).
Proof. exact (StringConverter_from_str_errors [] IndexError eq_refl). Defined.

(** [FloatConverter.to_str] writes eight characters, each below 256, and
    what it writes can be taken apart again in one way only: two patterns
    of 64 bits that encode to the same characters, whatever follows them,
    are the same pattern. *)
Theorem FloatConverter_to_str_fixed_width (v1 v2 : Z) (x y : pystr) :
  0 <= v1 < 2 ^ 64 -> 0 <= v2 < 2 ^ 64 ->
  length (FloatConverter_to_str v1) = 8%nat
  /\ Forall (fun c => (c < 256)%N) (FloatConverter_to_str v1)
  /\ (FloatConverter_to_str v1 ++ x = FloatConverter_to_str v2 ++ y ->
      v1 = v2 /\ x = y).
Proof.
  intros H1 H2. unfold FloatConverter_to_str, struct_pack_d.
  split; [now rewrite length_decode_latin1, length_le_bytes|].
  split; [apply decode_latin1_bounded|].
  intros E. apply app_inj_1 in E as [Ep ->];
    [|now rewrite !length_decode_latin1, !length_le_bytes].
  apply decode_latin1_inj, le_bytes_inj in Ep; [auto|exact H1|exact H2].
Qed.

Lemma FloatConverter_to_str_fixed_width_witness :
  length (FloatConverter_to_str bits_3_14) = 8%nat.
Proof.
  exact (proj1 (FloatConverter_to_str_fixed_width bits_3_14 bits_3_14 [] []
                  ltac:(vm_compute; split; [discriminate|reflexivity])
                  ltac:(vm_compute; split; [discriminate|reflexivity]))).
Defined.

(** What [IntConverter.to_str] returns when it returns. *)
Lemma IntConverter_to_str_Ok
    (st st1 st2 : state) (depth : nat) (self str_converter : converter)
    (v : Z) (e : pystr) :
  cclass self = IntConverter ->
  get_converter (TClass str_class) st = (Ok str_converter, st1) ->
  cclass str_converter = StringConverter ->
  to_str (S (S depth)) self (VInt v) st = (Ok e, st2) ->
  0 <= v
  /\ 0 < bit_length v / 8 + 1 < 2 ^ 32
  /\ e = decode_latin1 (le_bytes 4 (bit_length v / 8 + 1))
         ++ decode_latin1 (le_bytes (Z.to_nat (bit_length v / 8 + 1)) v).
Proof.
  intros Hself Hget Hstr.
  rewrite (IntConverter_to_str_run _ _ _ _ _ v Hself Hget Hstr).
  pose proof (bit_length_nonneg v) as Hb.
  pose proof (Z.div_pos (bit_length v) 8 Hb ltac:(lia)) as Hq.
  destruct (Z.ltb_spec v 0); [discriminate|].
  destruct (Z.leb_spec (2 ^ 32) (bit_length v / 8 + 1)); [discriminate|].
  intros [Es _]%pair_equal_spec.
  split; [assumption|]. split; [lia|]. congruence.
Qed.

(** What [IntConverter.to_str] writes can be taken apart again in one way
    only: if one encoded integer followed by [x] is another encoded integer
    followed by [y], the two integers are the same and so are [x] and
    [y]. *)
Theorem IntConverter_to_str_prefix_code
    (depth : nat) (self ca cb : converter) (sa sa1 sa2 sb sb1 sb2 : state)
    (v1 v2 : Z) (e1 e2 x y : pystr) :
  cclass self = IntConverter ->
  get_converter (TClass str_class) sa = (Ok ca, sa1) -> cclass ca = StringConverter ->
  get_converter (TClass str_class) sb = (Ok cb, sb1) -> cclass cb = StringConverter ->
  to_str (S (S depth)) self (VInt v1) sa = (Ok e1, sa2) ->
  to_str (S (S depth)) self (VInt v2) sb = (Ok e2, sb2) ->
  e1 ++ x = e2 ++ y ->
  v1 = v2 /\ x = y.
Proof.
  intros Hself Ha Hca Hb Hcb E1 E2 E.
  apply (IntConverter_to_str_Ok _ _ _ _ _ _ _ _ Hself Ha Hca) in E1 as (Hv1 & Hn1 & ->).
  apply (IntConverter_to_str_Ok _ _ _ _ _ _ _ _ Hself Hb Hcb) in E2 as (Hv2 & Hn2 & ->).
  pose proof (byte_length_fits v1 Hv1) as Hf1.
  pose proof (byte_length_fits v2 Hv2) as Hf2.
  set (n1 := bit_length v1 / 8 + 1) in *. set (n2 := bit_length v2 / 8 + 1) in *.
  rewrite <- !app_assoc in E.
  apply app_inj_1 in E as [Ep E];
    [|now rewrite !length_decode_latin1, !length_le_bytes].
  apply decode_latin1_inj, le_bytes_inj in Ep;
    [|change (256 ^ Z.of_nat 4) with (2 ^ 32); lia..].
  rewrite <- Ep in *. clearbody n1. clear Ep Hn2 n2.
  apply app_inj_1 in E as [Ed E];
    [|now rewrite !length_decode_latin1, !length_le_bytes].
  apply decode_latin1_inj, le_bytes_inj in Ed;
    [auto|rewrite Z2Nat.id by lia; lia..].
Qed.

Lemma IntConverter_to_str_prefix_code_witness : 300 = 300 /\ lit "t" = lit "t".
Proof.
  exact (IntConverter_to_str_prefix_code 0 (Converter 7 IntConverter (TClass int_class))
           _ _ module_state _ _ module_state _ _ 300 300 _ _ (lit "t") (lit "t")
           eq_refl eq_refl eq_refl eq_refl eq_refl eq_refl eq_refl eq_refl).
Defined.

(** The fragment of an integer costs [bit_length(v) // 8 + 5] of the 100
    characters, and all its characters are below 256. *)
Theorem IntConverter_to_str_size
    (st st1 st2 : state) (depth : nat) (self str_converter : converter)
    (v : Z) (e : pystr) :
  cclass self = IntConverter ->
  get_converter (TClass str_class) st = (Ok str_converter, st1) ->
  cclass str_converter = StringConverter ->
  to_str (S (S depth)) self (VInt v) st = (Ok e, st2) ->
  len e = bit_length v / 8 + 5
  /\ Forall (fun c => (c < 256)%N) e.
Proof.
  intros Hself Hget Hstr Henc.
  apply (IntConverter_to_str_Ok _ _ _ _ _ _ _ _ Hself Hget Hstr) in Henc
    as (Hv & Hn & ->).
  split.
  - unfold len. rewrite length_app, !length_decode_latin1, !length_le_bytes. lia.
  - apply Forall_app. split; apply decode_latin1_bounded.
Qed.

Lemma IntConverter_to_str_size_witness :
  len [2; 0; 0; 0; 44; 1]%N = bit_length 300 / 8 + 5
  /\ Forall (fun c => (c < 256)%N) [2; 0; 0; 0; 44; 1]%N.
Proof.
  exact (IntConverter_to_str_size module_state _ _ 0
           (Converter 7 IntConverter (TClass int_class)) _ 300 _
           eq_refl eq_refl eq_refl eq_refl).
Defined.

(** ** What the codec does to the state *)

Lemma runs_trans (st1 st2 st3 : state) : runs st1 st2 -> runs st2 st3 -> runs st1 st3.
Proof.
  intros H12 H23. induction H23; [assumption|constructor; auto..].
Qed.

Lemma runs_bind {A B} (m : M A) (k : A -> M B) (st : state) :
  runs st (snd (m st)) ->
  (forall a st', runs st' (snd (k a st'))) ->
  runs st (snd (Registry.bind m k st)).
Proof.
  intros Hm Hk. unfold Registry.bind.
  destruct (m st) as [[a|e] st'] eqn:E; cbn [snd] in *; [|exact Hm].
  eapply runs_trans; [exact Hm|apply Hk].
Qed.

Lemma runs_get_converter (type_ : hint) (st : state) :
  runs st (snd (get_converter type_ st)).
Proof. apply runs_get, runs_refl. Qed.

Lemma runs_lift {A} (r : result A) (st : state) : runs st (snd (lift r st)).
Proof. apply runs_refl. Qed.

Lemma runs_to_str (depth : nat) (self : converter) (obj : value) (st : state) :
  runs st (snd (to_str depth self obj st)).
Proof.
  revert self obj st. induction depth as [|depth IH]; intros self obj st;
    [apply runs_refl|].
  cbn [to_str]. destruct (cclass self).
  - apply runs_bind; [apply runs_lift|]. intros z st1.
    apply runs_bind; [apply runs_get_converter|]. intros c st2.
    apply runs_bind; [apply runs_lift|]. intros b st3. apply IH.
  - destruct obj; try apply runs_refl;
      (apply runs_bind; [apply runs_lift|intros; apply runs_refl]).
  - destruct obj; apply runs_refl.
  - apply runs_bind; [apply runs_get_converter|]. intros c st1.
    destruct obj; try apply runs_refl. apply IH.
  - apply runs_refl.
  - apply runs_refl.
Qed.

Lemma runs_from_str (depth : nat) (self : converter) (obj : pystr) (st : state) :
  runs st (snd (from_str depth self obj st)).
Proof.
  revert self obj st. induction depth as [|depth IH]; intros self obj st;
    [apply runs_refl|].
  cbn [from_str]. apply runs_bind; [apply runs_log, runs_refl|]. intros _ st0.
  destruct (cclass self).
  - apply runs_bind; [apply runs_get_converter|]. intros c st1.
    apply runs_bind; [apply IH|]. intros [remaining o] st2.
    destruct (ctype self); try apply runs_refl.
    destruct (class_issubclass c0 int_class); [|apply runs_refl].
    destruct o; try apply runs_refl.
    apply runs_bind; [apply runs_lift|]. intros b st3.
    apply runs_bind; [apply runs_lift|]. intros v st4. apply runs_refl.
  - apply runs_bind; [apply runs_lift|]. intros [r x] st1. apply runs_refl.
  - apply runs_bind; [apply runs_lift|]. intros [r x] st1. apply runs_refl.
  - apply runs_bind; [apply runs_get_converter|]. intros c st1.
    apply runs_bind; [apply IH|]. intros [remaining o] st2.
    destruct (ctype self); try apply runs_refl.
    destruct (int_of_value o); [|apply runs_refl].
    apply runs_bind; [apply runs_lift|]. intros v st3. apply runs_refl.
  - apply runs_bind; [apply runs_lift|]. intros [r x] st1. apply runs_refl.
  - apply runs_refl.
Qed.

Lemma runs_gather_iter (depth : nat) (kwargs : gmap pystr value)
    (types : list (pystr * hint)) (st : state) :
  runs st (snd (gather_iter
                  (map (fun '(k, v) => serialize_one depth kwargs k v) types) st)).
Proof.
  revert st. induction types as [|[k v] types IH]; intros st; [apply runs_refl|].
  cbn [map gather_iter]. apply runs_bind.
  - unfold serialize_one. apply runs_bind; [apply runs_get_converter|].
    intros c st1. apply runs_to_str.
  - intros x st1. apply runs_bind; [apply IH|]. intros xs st2. apply runs_refl.
Qed.

Lemma runs_serialize (depth : nat) (cookie : pystr) (types : list (pystr * hint))
    (kwargs : gmap pystr value) (st : state) :
  runs st (snd (serialize depth cookie types kwargs st)).
Proof.
  unfold serialize. apply runs_bind; [apply runs_gather_iter|].
  intros fragments st1. destruct (100 <? len (concat fragments)); apply runs_refl.
Qed.

Lemma runs_decode_fields (depth : nat) (annotations : list (pystr * hint))
    (custom_id : pystr) (acc : list (pystr * value)) (st : state) :
  runs st (snd (decode_fields depth annotations custom_id acc st)).
Proof.
  revert custom_id acc st.
  induction annotations as [|[k v] annotations IH]; intros custom_id acc st;
    [apply runs_refl|].
  cbn [decode_fields]. apply runs_bind; [apply runs_get_converter|]. intros c st1.
  apply runs_bind; [apply runs_from_str|]. intros [rest x] st2. apply IH.
Qed.

Lemma runs_deserialize (depth : nat) (custom_id : pystr)
    (component_map : gmap pystr component) (st : state) :
  runs st (snd (deserialize depth custom_id component_map st)).
Proof.
  unfold deserialize. apply runs_bind; [apply runs_get_converter|]. intros c st1.
  apply runs_bind; [apply runs_from_str|]. intros [rest cookie] st2.
  destruct cookie; try apply runs_refl.
  destruct (component_map !! s); [|apply runs_refl].
  apply runs_bind; [apply runs_decode_fields|]. intros args st3.
  apply runs_bind; [apply runs_log, runs_refl|]. intros _ st4. apply runs_refl.
Qed.

Lemma runs_frame (st st' : state) :
  runs st st' ->
  _converters st' = _converters st
  /\ (next_oid st <= next_oid st')%nat
  /\ (exists evs, trace st' = trace st ++ evs)
  /\ (reachable st -> reachable st').
Proof.
  induction 1 as [st|type_ st st' _ (IHr & IHo & [evs IHt] & IHreach)
                    |ev st st' _ (IHr & IHo & [evs IHt] & IHreach)].
  - split; [reflexivity|]. split; [lia|]. split; [|auto].
    exists []. now rewrite app_nil_r.
  - destruct (get_converter_frame type_ st') as (Hr & Ht & Hn).
    cbv zeta in Hr, Ht, Hn.
    split; [congruence|]. split; [lia|]. split.
    + exists evs. congruence.
    + intros Hst. eapply reachable_step; [exact (IHreach Hst)|apply step_get].
  - split; [exact IHr|]. split; [exact IHo|]. split.
    + exists (evs ++ [ev]). cbn [record_event trace]. rewrite IHt. now rewrite app_assoc.
    + intros Hst. eapply reachable_step; [exact (IHreach Hst)|apply step_log].
Qed.

(** What [serialize] and [deserialize] never do: whatever they are given
    and whether they return or raise, they leave the registry as it was and
    take no object identity back, and [deserialize] only adds to the record
    of decoding calls. *)
Theorem codec_keeps_registry
    (depth : nat) (cookie custom_id : pystr) (types : list (pystr * hint))
    (kwargs : gmap pystr value) (component_map : gmap pystr component) (st : state) :
  let st1 := snd (serialize depth cookie types kwargs st) in
  let st2 := snd (deserialize depth custom_id component_map st) in
  _converters st1 = _converters st
  /\ _converters st2 = _converters st
  /\ (next_oid st <= next_oid st1)%nat
  /\ (next_oid st <= next_oid st2)%nat
  /\ exists evs, trace st2 = trace st ++ evs.
Proof.
  intros st1 st2.
  destruct (runs_frame _ _ (runs_serialize depth cookie types kwargs st))
    as (H1 & H2 & _ & _).
  destruct (runs_frame _ _ (runs_deserialize depth custom_id component_map st))
    as (H3 & H4 & H5 & _).
  auto.
Qed.

(** The cache stays sound through the codec: from a reachable state,
    [serialize] and [deserialize] end in a reachable state, so the
    invariant of the cache holds after them as well, whether they return or
    raise. *)
Theorem codec_keeps_reachable
    (depth : nat) (cookie custom_id : pystr) (types : list (pystr * hint))
    (kwargs : gmap pystr value) (component_map : gmap pystr component) (st : state) :
  reachable st ->
  reachable (snd (serialize depth cookie types kwargs st))
  /\ reachable (snd (deserialize depth custom_id component_map st)).
Proof.
  intros Hst. split.
  - exact (proj2 (proj2 (proj2 (runs_frame _ _ (runs_serialize _ _ _ _ _)))) Hst).
  - exact (proj2 (proj2 (proj2 (runs_frame _ _ (runs_deserialize _ _ _ _)))) Hst).
Qed.

Lemma codec_keeps_reachable_witness :
  reachable (snd (serialize 2 (lit "c") [(lit "a", TClass int_class)]
                    {[ lit "a" := VInt 5 ]} module_state))
  /\ reachable (snd (deserialize 2 [1; 99; 116]%N
                       {[ lit "c" := Component "C" [(lit "b", TClass bool_class)] ]}
                       module_state)).
Proof.
  exact (codec_keeps_reachable 2 (lit "c") [1; 99; 116]%N
           [(lit "a", TClass int_class)] {[ lit "a" := VInt 5 ]}
           {[ lit "c" := Component "C" [(lit "b", TClass bool_class)] ]}
           module_state reachable_module_state).
Defined.

(** ** [serialize] and its arguments *)

(** [serialize] looks at [kwargs] through the keys of the schema alone: two
    dictionaries that agree on these keys give the same result, whatever
    else they hold. *)
Theorem serialize_kwargs_outside_schema
    (depth : nat) (cookie : pystr) (types : list (pystr * hint))
    (kwargs1 kwargs2 : gmap pystr value) (st : state) :
  (forall k v, (k, v) ∈ types -> kwargs1 !! k = kwargs2 !! k) ->
  serialize depth cookie types kwargs1 st = serialize depth cookie types kwargs2 st.
Proof.
  intros Hagree. unfold serialize. f_equal.
  assert (Hmap : map (fun '(k, v) => serialize_one depth kwargs1 k v) types
                 = map (fun '(k, v) => serialize_one depth kwargs2 k v) types).
  { apply map_ext_in. intros [k v] Hin. unfold serialize_one.
    now rewrite (Hagree k v (proj2 (list_elem_of_In _ _) Hin)). }
  now rewrite Hmap.
Qed.

Lemma serialize_kwargs_outside_schema_witness :
  serialize 2 (lit "c") [(lit "a", TClass int_class)]
    {[ lit "a" := VInt 5; lit "zz" := VStr (lit "ignored") ]} module_state
  = serialize 2 (lit "c") [(lit "a", TClass int_class)]
      {[ lit "a" := VInt 5 ]} module_state.
Proof.
  apply serialize_kwargs_outside_schema.
  intros k v [[= -> ->]|Hin]%elem_of_cons; [|inversion Hin].
  vm_compute. reflexivity.
Defined.

(** A field of the schema that [kwargs] does not hold is encoded as [None]:
    a [BoolConverter] writes ["f"] for it, a [StringConverter] raises
    [TypeError], an [IntConverter] [AttributeError], a [FloatConverter]
    [struct.error], and an [EnumConverter] [AttributeError] once it has
    resolved the converter of [int]. *)
Theorem serialize_one_missing_key
    (depth : nat) (kwargs : gmap pystr value) (k : pystr) (v : hint)
    (st st1 : state) (converter : converter) :
  kwargs !! k = None ->
  get_converter v st = (Ok converter, st1) ->
  serialize_one (S depth) kwargs k v st
  = match cclass converter with
    | BoolConverter => (Ok (lit "f"), st1)
    | StringConverter => (Raise TypeError, st1)
    | IntConverter => (Raise AttributeError, st1)
    | FloatConverter => (Raise StructError, st1)
    | EnumConverter =>
        match get_converter (TClass int_class) st1 with
        | (Ok _, st2) => (Raise AttributeError, st2)
        | (Raise e, st2) => (Raise e, st2)
        end
    | UserConverter _ impl => (u_to_str impl (ctype converter) VNone, st1)
    end.
Proof.
  intros Hk Hget. unfold serialize_one, Registry.bind. rewrite Hk, Hget.
  cbn [default from_option to_str].
  destruct (cclass converter); reflexivity.
Qed.

Lemma serialize_one_missing_key_witness :
  serialize_one 1 ∅ (lit "flag") (TClass bool_class) module_state
  = (Ok (lit "f"), snd (get_converter (TClass bool_class) module_state)).
Proof.
  exact (serialize_one_missing_key 0 ∅ (lit "flag") (TClass bool_class)
           module_state _ _ (lookup_empty _) eq_refl).
Defined.

(** ** [deserialize] *)

(** Whatever the string converter raises on the identifier is what
    [deserialize] raises: [IndexError] on the empty identifier and
    [UnicodeEncodeError] on a first character above 255, before the
    component map is looked at. *)
Theorem deserialize_unreadable_cookie
    (depth : nat) (custom_id : pystr) (component_map : gmap pystr component)
    (st st1 : state) (str_converter : converter) (e : exc) :
  get_converter (TClass str_class) st = (Ok str_converter, st1) ->
  cclass str_converter = StringConverter ->
  StringConverter_from_str custom_id = Raise e ->
  deserialize (S depth) custom_id component_map st
  = (Raise e, record_event (EvFromStr str_converter custom_id) st1).
Proof.
  intros Hget Hstr Hdec.
  unfold deserialize. unfold Registry.bind at 1. rewrite Hget.
  unfold Registry.bind at 1. cbn [from_str].
  unfold Registry.bind at 1. cbn [log]. rewrite Hstr.
  unfold Registry.bind at 1, lift at 1. rewrite Hdec. reflexivity.
Qed.

Lemma deserialize_unreadable_cookie_witness :
  fst (deserialize 1 [] (∅ : gmap pystr component) module_state) = Raise IndexError
  /\ fst (deserialize 1 [300%N; 99%N] (∅ : gmap pystr component) module_state)
     = Raise UnicodeEncodeError.
Proof.
  split.
  - rewrite (deserialize_unreadable_cookie 0 [] ∅ module_state _ _ IndexError
               eq_refl eq_refl eq_refl).
    reflexivity.
  - rewrite (deserialize_unreadable_cookie 0 [300%N; 99%N] ∅ module_state _ _
               UnicodeEncodeError eq_refl eq_refl eq_refl).
    reflexivity.
Defined.

Lemma args_set_fresh (k : pystr) (v : value) (d : list (pystr * value)) :
  k ∉ map fst d -> args_set k v d = d ++ [(k, v)].
Proof.
  induction d as [|[k' v'] d IH]; cbn [args_set map fst app]; [reflexivity|].
  intros Hk. apply not_elem_of_cons in Hk as [Hne Hk].
  rewrite bool_decide_eq_false_2 by congruence. now rewrite IH.
Qed.

Lemma decode_fields_keys (depth : nat) (annotations : list (pystr * hint))
    (custom_id : pystr) (acc res : list (pystr * value)) (st st' : state) :
  NoDup (map fst acc ++ map fst annotations) ->
  decode_fields depth annotations custom_id acc st = (Ok res, st') ->
  map fst res = map fst acc ++ map fst annotations.
Proof.
  revert custom_id acc st.
  induction annotations as [|[k v] annotations IH]; intros custom_id acc st Hnd.
  - cbn. intros [= <- _]. now rewrite app_nil_r.
  - cbn [decode_fields]. unfold Registry.bind at 1.
    destruct (get_converter v st) as [[c|e] st1]; [|discriminate].
    unfold Registry.bind at 1.
    destruct (from_str depth c custom_id st1) as [[[rest x]|e] st2]; [|discriminate].
    cbn [map fst] in Hnd.
    assert (Hk : k ∉ map fst acc).
    { apply NoDup_app in Hnd as (_ & Hd & _). intros Hin.
      apply (Hd k Hin). apply list_elem_of_here. }
    rewrite (args_set_fresh _ _ _ Hk). intros Hrun.
    apply IH in Hrun.
    + rewrite Hrun, map_app. cbn [map fst]. now rewrite <- app_assoc.
    + rewrite map_app. cbn [map fst]. now rewrite <- app_assoc.
Qed.

(** When [deserialize] returns, the component is the one the map holds for
    the decoded cookie, and the dictionary of arguments has the names of
    the fields of that component, each once, in the order of its
    annotations. *)
Theorem deserialize_result_keys
    (depth : nat) (custom_id : pystr) (component_map : gmap pystr component)
    (st st' : state) (component_ : component) (transformed_args : list (pystr * value)) :
  deserialize depth custom_id component_map st
  = (Ok (component_, transformed_args), st') ->
  NoDup (map fst (_dataclass_annotations component_)) ->
  (exists cookie, component_map !! cookie = Some component_)
  /\ map fst transformed_args = map fst (_dataclass_annotations component_).
Proof.
  unfold deserialize. unfold Registry.bind at 1.
  destruct (get_converter (TClass str_class) st) as [[c|e] st1]; [|discriminate].
  unfold Registry.bind at 1.
  destruct (from_str depth c custom_id st1) as [[[rest cookie]|e] st2]; [|discriminate].
  destruct cookie as [| | | |cookie|]; try discriminate.
  destruct (component_map !! cookie) as [comp|] eqn:Hmap; [|discriminate].
  unfold Registry.bind at 1.
  destruct (decode_fields depth (_dataclass_annotations comp) rest [] st2)
    as [[args|e] st3] eqn:Hdec; [|discriminate].
  unfold Registry.bind, log, ret. intros [= <- <- _] Hnd.
  split; [eauto|].
  exact (decode_fields_keys depth (_dataclass_annotations comp) rest [] args
           st2 st3 Hnd Hdec).
Qed.

Lemma deserialize_result_keys_witness :
  (exists cookie,
     ({[ lit "c" := Component "C" [(lit "a", TClass bool_class); (lit "b", TClass bool_class)] ]}
        : gmap pystr component) !! cookie
     = Some (Component "C" [(lit "a", TClass bool_class); (lit "b", TClass bool_class)]))
  /\ map fst [(lit "a", VBool true); (lit "b", VBool false)] = [lit "a"; lit "b"].
Proof.
  refine (deserialize_result_keys 2 ([1; 99]%N ++ lit "tf")
            {[ lit "c" := Component "C" [(lit "a", TClass bool_class);
                                         (lit "b", TClass bool_class)] ]}
            module_state _ _ _ _ _).
  - apply run_Ok. vm_compute. reflexivity.
  - apply (bool_decide_unpack _). vm_compute. exact I.
Defined.

(** ** Schemas of boolean fields through the codec *)

Lemma builtin_state_get (type_ : hint) (st : state) :
  builtin_state st -> builtin_state (snd (get_converter type_ st)).
Proof.
  intros [Hr Hregs]. split.
  - eapply reachable_step; [exact Hr|apply step_get].
  - now rewrite (proj1 (get_converter_frame type_ st)).
Qed.

Lemma builtin_state_log (ev : event) (st : state) :
  builtin_state st -> builtin_state (record_event ev st).
Proof.
  intros [Hr Hregs]. split; [|exact Hregs].
  eapply reachable_step; [exact Hr|apply step_log].
Qed.

Lemma builtin_state_class (c : pyclass) (cls : conv_class) (st : state) :
  builtin_state st ->
  builtin_dispatch c = Some cls ->
  exists v, get_converter (TClass c) st = (Ok v, snd (get_converter (TClass c) st))
            /\ cclass v = cls.
Proof.
  intros [Hr Hregs] Hd.
  pose proof (get_converter_atom_resolve (TClass c) st
                (reachable_invariant _ Hr) eq_refl) as H.
  rewrite Hregs, resolve_builtin, Hd in H. destruct H as (v & Hv & Hc & _).
  exists v. split; [now apply run_Ok|exact Hc].
Qed.

Lemma length_bool_fragments (fields : list (pystr * bool)) :
  length (bool_fragments fields) = length fields.
Proof.
  unfold bool_fragments. induction fields as [|[k b] fields IH]; [reflexivity|].
  cbn [map concat snd]. rewrite length_app, IH. now destruct b.
Qed.

Lemma gather_iter_bool_schema (depth : nat) (kwargs : gmap pystr value)
    (fields : list (pystr * bool)) (st : state) :
  builtin_state st ->
  (forall f, f ∈ fields -> kwargs !! fst f = Some (VBool (snd f))) ->
  exists st',
    gather_iter (map (fun '(k, v) => serialize_one (S depth) kwargs k v)
                   (bool_schema fields)) st
    = (Ok (map (fun f => BoolConverter_to_str (snd f)) fields), st')
    /\ builtin_state st'.
Proof.
  revert st. induction fields as [|[k b] fields IH]; intros st Hst Hkw.
  - exists st. split; [reflexivity|exact Hst].
  - destruct (builtin_state_class bool_class BoolConverter st Hst eq_refl)
      as (v & Hget & Hv).
    destruct (IH (snd (get_converter (TClass bool_class) st))
                (builtin_state_get _ _ Hst)
                (fun f Hf => Hkw f (list_elem_of_further _ _ _ Hf)))
      as (st' & Hrest & Hst').
    exists st'. split; [|exact Hst'].
    cbn [bool_schema map gather_iter fst snd]. unfold Registry.bind at 1.
    unfold serialize_one at 1, Registry.bind at 1.
    pose proof (Hkw (k, b) (list_elem_of_here _ _)) as Hkb. cbn [fst snd] in Hkb.
    rewrite Hget, Hkb.
    cbn [default from_option to_str fst snd]. rewrite Hv. cbn [truthy ret].
    unfold Registry.bind at 1. fold (bool_schema fields). rewrite Hrest.
    reflexivity.
Qed.

Lemma decode_fields_bool_schema (depth : nat) (fields : list (pystr * bool))
    (suffix : pystr) (acc : list (pystr * value)) (st : state) :
  builtin_state st ->
  NoDup (map fst acc ++ map fst fields) ->
  exists st',
    decode_fields (S depth) (bool_schema fields) (bool_fragments fields ++ suffix)
      acc st
    = (Ok (acc ++ bool_args fields), st')
    /\ builtin_state st'.
Proof.
  revert acc st. induction fields as [|[k b] fields IH]; intros acc st Hst Hnd.
  - exists st. cbn. rewrite app_nil_r. split; [reflexivity|exact Hst].
  - destruct (builtin_state_class bool_class BoolConverter st Hst eq_refl)
      as (v & Hget & Hv).
    cbn [map fst] in Hnd.
    assert (Hk : k ∉ map fst acc).
    { apply NoDup_app in Hnd as (_ & Hd & _). intros Hin.
      apply (Hd k Hin). apply list_elem_of_here. }
    set (st1 := record_event
                  (EvFromStr v (bool_fragments ((k, b) :: fields) ++ suffix))
                  (snd (get_converter (TClass bool_class) st))).
    assert (Hst1 : builtin_state st1)
      by (apply builtin_state_log, builtin_state_get, Hst).
    destruct (IH (acc ++ [(k, VBool b)]) st1 Hst1) as (st' & Hrest & Hst').
    { rewrite map_app. cbn [map fst]. now rewrite <- app_assoc. }
    exists st'. split; [|exact Hst'].
    cbn [bool_schema map decode_fields fst snd]. unfold Registry.bind at 1.
    rewrite Hget. unfold Registry.bind at 1. cbn [from_str].
    unfold Registry.bind at 1. cbn [log]. fold st1. rewrite Hv.
    unfold Registry.bind at 1, lift at 1.
    assert (Hb : BoolConverter_from_str (bool_fragments ((k, b) :: fields) ++ suffix)
                 = Ok (bool_fragments fields ++ suffix, b))
      by (destruct b; reflexivity).
    rewrite Hb. unfold ret at 1. rewrite (args_set_fresh _ _ _ Hk).
    fold (bool_schema fields). rewrite Hrest.
    unfold bool_args. cbn [map fst snd]. now rewrite <- app_assoc.
Qed.

(** Fields of type [bool] do come back: under the registrations of the
    module, in any reachable state, [serialize] on a schema of at most 100
    boolean fields returns one character for each field, [t] or [f], in the
    order of the schema, and the loop of [deserialize] over the same schema
    reads the values back from these characters, whatever follows them. *)
Theorem bool_schema_roundtrip
    (depth : nat) (cookie : pystr) (fields : list (pystr * bool)) (st : state) :
  reachable st ->
  _converters st = _converters module_state ->
  NoDup (map fst fields) ->
  (length fields <= 100)%nat ->
  exists st1,
    serialize (S depth) cookie (bool_schema fields) (bool_kwargs fields) st
    = (Ok (bool_fragments fields), st1)
    /\ forall suffix,
         fst (decode_fields (S depth) (bool_schema fields)
                (bool_fragments fields ++ suffix) [] st1)
         = Ok (bool_args fields).
Proof.
  intros Hr Hregs Hnd Hlen.
  destruct (gather_iter_bool_schema depth (bool_kwargs fields) fields st
              (conj Hr Hregs)) as (st1 & Hgather & Hst1).
  { intros [k b] Hf. unfold bool_kwargs. apply elem_of_list_to_map_1.
    - rewrite <- list_fmap_compose. exact Hnd.
    - apply list_elem_of_fmap. exists (k, b). split; [reflexivity|exact Hf]. }
  exists st1. split.
  - unfold serialize, Registry.bind. rewrite Hgather.
    fold (bool_fragments fields).
    destruct (Z.ltb_spec 100 (len (bool_fragments fields))) as [Hbig|_];
      [|reflexivity].
    unfold len in Hbig. rewrite length_bool_fragments in Hbig. lia.
  - intros suffix.
    destruct (decode_fields_bool_schema depth fields suffix [] st1 Hst1 Hnd)
      as (st' & Hdec & _).
    now rewrite Hdec.
Qed.

Lemma bool_schema_roundtrip_witness :
  exists st1,
    serialize 1 (lit "c") (bool_schema [(lit "a", true); (lit "b", false)])
      (bool_kwargs [(lit "a", true); (lit "b", false)]) module_state
    = (Ok (lit "tf"), st1)
    /\ forall suffix,
         fst (decode_fields 1 (bool_schema [(lit "a", true); (lit "b", false)])
                (lit "tf" ++ suffix) [] st1)
         = Ok [(lit "a", VBool true); (lit "b", VBool false)].
Proof.
  exact (bool_schema_roundtrip 0 (lit "c") [(lit "a", true); (lit "b", false)]
           module_state reachable_module_state eq_refl
           ltac:(apply (bool_decide_unpack _); vm_compute; exact I)
           ltac:(vm_compute; lia)).
Defined.

(** The identifier [StringConverter.from_str] does read: one character of
    length below 256, then that many characters. *)
Lemma StringConverter_from_str_one_char (string rest : pystr) :
  (length string < 256)%nat ->
  StringConverter_from_str ([N.of_nat (length string)] ++ string ++ rest)
  = Ok (rest, string).
Proof.
  intros Hlen. unfold StringConverter_from_str.
  cbn [app index0 rbind encode_latin1].
  destruct (Byte.of_N (N.of_nat (length string))) as [b|] eqn:Hb.
  - cbn [rbind from_bytes]. apply Byte.to_of_N in Hb.
    rewrite Hb, Z.mul_0_r, Z.add_0_r.
    replace (Z.to_nat (Z.of_N (N.of_nat (length string)))) with (length string) by lia.
    unfold slice, slice_from.
    replace (length string + 1 - 1)%nat with (length string) by lia.
    replace (length string + 1)%nat with (S (length string)) by lia.
    cbn [drop]. rewrite drop_0, take_app_length, drop_app_length. reflexivity.
  - apply Byte.of_N_None_iff in Hb. lia.
Qed.

(** What [deserialize] accepts: under the registrations of the module, an
    identifier made of one character holding the length of the cookie, the
    cookie, and one character [t] or [f] for each boolean field of the
    component registered under the cookie gives back the component and the
    values of its fields; characters that follow the last field are left
    unread and raise nothing. *)
Theorem deserialize_bool_component
    (depth : nat) (cookie junk : pystr) (fields : list (pystr * bool))
    (component_map : gmap pystr component) (component_ : component) (st : state) :
  reachable st ->
  _converters st = _converters module_state ->
  (length cookie < 256)%nat ->
  component_map !! cookie = Some component_ ->
  _dataclass_annotations component_ = bool_schema fields ->
  NoDup (map fst fields) ->
  fst (deserialize (S depth)
         ([N.of_nat (length cookie)] ++ cookie ++ bool_fragments fields ++ junk)
         component_map st)
  = Ok (component_, bool_args fields).
Proof.
  intros Hr Hregs Hlen Hmap Hann Hnd.
  destruct (builtin_state_class str_class StringConverter st (conj Hr Hregs) eq_refl)
    as (v & Hget & Hv).
  set (custom_id := [N.of_nat (length cookie)] ++ cookie ++ bool_fragments fields ++ junk).
  set (st1 := record_event (EvFromStr v custom_id)
                (snd (get_converter (TClass str_class) st))).
  assert (Hst1 : builtin_state st1)
    by (apply builtin_state_log, builtin_state_get; split; assumption).
  destruct (decode_fields_bool_schema depth fields junk [] st1 Hst1 Hnd)
    as (st2 & Hdec & _).
  unfold deserialize. unfold Registry.bind at 1. rewrite Hget.
  unfold Registry.bind at 1. cbn [from_str].
  unfold Registry.bind at 1. cbn [log]. fold st1. rewrite Hv.
  clearbody st1. subst custom_id.
  unfold Registry.bind at 1, lift at 1.
  rewrite (StringConverter_from_str_one_char cookie _ Hlen).
  unfold ret at 1. rewrite Hmap, Hann.
  unfold Registry.bind at 1. rewrite Hdec. reflexivity.
Qed.

Lemma deserialize_bool_component_witness :
  fst (deserialize 1 ([1; 99]%N ++ lit "tf" ++ lit "left over")
         {[ lit "c" := Component "C" (bool_schema [(lit "a", true); (lit "b", false)]) ]}
         module_state)
  = Ok (Component "C" (bool_schema [(lit "a", true); (lit "b", false)]),
        [(lit "a", VBool true); (lit "b", VBool false)]).
Proof.
  assert (Hmap : ({[ lit "c" := Component "C"
                       (bool_schema [(lit "a", true); (lit "b", false)]) ]}
                    : gmap pystr component) !! lit "c"
                 = Some (Component "C"
                           (bool_schema [(lit "a", true); (lit "b", false)])))
    by (vm_compute; reflexivity).
  exact (deserialize_bool_component 0 (lit "c") (lit "left over")
           [(lit "a", true); (lit "b", false)] _ _ module_state
           reachable_module_state eq_refl ltac:(vm_compute; lia) Hmap eq_refl
           ltac:(apply (bool_decide_unpack _); vm_compute; exact I)).
Defined.

(** ** Subclass fallback after a registration *)




(** ** The integer and the enum converters on the format they read *)

Lemma builtin_state_class_bound (c : pyclass) (cls : conv_class) (st : state) :
  builtin_state st ->
  builtin_dispatch c = Some cls ->
  exists v, get_converter (TClass c) st = (Ok v, snd (get_converter (TClass c) st))
            /\ cclass v = cls /\ ctype v = TClass c.
Proof.
  intros [Hr Hregs] Hd.
  pose proof (get_converter_atom_resolve (TClass c) st
                (reachable_invariant _ Hr) eq_refl) as H.
  rewrite Hregs, resolve_builtin, Hd in H. destruct H as (v & Hv & Hc & Ht).
  exists v. split; [now apply run_Ok|]. split; assumption.
Qed.






(** [EnumConverter.to_str] writes what the integer converter writes for the
    value of the member: under the registrations of the module, four
    characters of length and the bytes of the value, for every member whose
    value is not negative and shorter than [2^32] bytes. *)
Theorem EnumConverter_to_str_as_int
    (depth : nat) (self : converter) (cls : pyclass) (v : Z) (st : state) :
  reachable st ->
  _converters st = _converters module_state ->
  cclass self = EnumConverter ->
  0 <= v ->
  bit_length v / 8 + 1 < 2 ^ 32 ->
  fst (to_str (S (S (S depth))) self (VEnum cls v) st)
  = Ok (decode_latin1 (le_bytes 4 (bit_length v / 8 + 1))
        ++ decode_latin1 (le_bytes (Z.to_nat (bit_length v / 8 + 1)) v)).
Proof.
  intros Hr Hregs Hself Hv Hlen.
  destruct (builtin_state_class_bound int_class IntConverter st (conj Hr Hregs) eq_refl)
    as (ic & Hget & Hic & _).
  destruct (builtin_state_class str_class StringConverter
              (snd (get_converter (TClass int_class) st))
              (builtin_state_get _ _ (conj Hr Hregs)) eq_refl)
    as (sc & Hgets & Hsc).
  pose proof (IntConverter_to_str_run _ _ depth ic sc v Hic Hgets Hsc) as Hrun.
  cbv zeta in Hrun.
  destruct (Z.ltb_spec v 0) as [?|_]; [lia|].
  destruct (Z.leb_spec (2 ^ 32) (bit_length v / 8 + 1)) as [?|_]; [lia|].
  destruct self as [o cl t]. cbn [cclass] in Hself. subst cl.
  remember (S (S depth)) as depth2 eqn:Hdepth2. clear Hdepth2.
  cbn [to_str cclass]. unfold Registry.bind. rewrite Hget, Hrun. reflexivity.
Qed.

Lemma EnumConverter_to_str_as_int_witness :
  fst (to_str 3 (Converter 7 EnumConverter (TClass Enum_class))
         (VEnum Enum_class 300) module_state)
  = Ok [2; 0; 0; 0; 44; 1]%N.
Proof.
  rewrite (EnumConverter_to_str_as_int 0 (Converter 7 EnumConverter (TClass Enum_class))
             Enum_class 300 module_state reachable_module_state eq_refl eq_refl
             ltac:(lia) ltac:(vm_compute; reflexivity)).
  reflexivity.
Defined.

(** ** Unions, when the body runs *)

(** From the registry alone, a union resolves as its leftmost alternative
    does, to the same class bound to the same type, whatever the other
    alternatives are; so [Optional[X]] resolves as [X].  (The alternative
    must not be a union itself, which the typing module sees to by
    flattening unions.) *)
Theorem resolve_union_left
    (regs : list (hint * (conv_class * bool))) (f : union_form)
    (a : hint) (others : list hint) (r : conv_class * hint) :
  _is_union a = false ->
  resolve regs (TUnion f (a :: others)) = Ok r <-> resolve regs a = Ok r.
Proof.
  intros Ha. unfold resolve, reduce, _get_left. rewrite Ha.
  replace (_is_union (TUnion f (a :: others))) with true by (destruct f; reflexivity).
  cbn [negb get_args rbind].
  destruct (dict_get _ regs) as [[cls sub]|]; [reflexivity|].
  destruct (scan_subclass _ regs) as [[cls|]|e]; try reflexivity.
  split; discriminate.
Qed.

Lemma resolve_union_left_witness :
  resolve (_converters module_state)
    (TUnion TypingUnion [TClass int_class; TClass NoneType_class])
  = Ok (IntConverter, TClass int_class).
Proof.
  apply (resolve_union_left (_converters module_state) TypingUnion
           (TClass int_class) [TClass NoneType_class]
           (IntConverter, TClass int_class) eq_refl).
  reflexivity.
Defined.
